(** * Relationship strength scoring: a shallow embedding of
      [src/scoring/relationship_scorer.py]

    The scorer reads four tables of an SQLite store ([accounts],
    [transfers], [account_relationships], [account_network_metrics]) and
    turns them into bounded sub-scores, a risk score and a total score.

    Conventions of the embedding:
    - Python floats and SQLite REALs are embedded as rationals [Q].  The
      casts of stored integers ([float(n)], [CAST(n AS REAL)]) and the
      quotient that the percentile query compares are rounded to the
      nearest double ([fl]), since what the queries count depends on it;
      the sums, products, caps and percentile quotients computed from
      the counts are taken exactly.
    - ISO timestamps are embedded already parsed, as a number of
      microseconds on the proleptic time line ([datetime] resolution),
      counted from 0001-01-01T00:00:00.
    - a table is the list of its rows in rowid order; [fetchone] is the
      first row of the result.
    - a breakdown [dict] is an association list in insertion order.
    - a call returns an [outcome]: its value, or the exception it
      raises. *)

From Stdlib Require Import ZArith QArith Qround Qminmax Qpower Qabs Lqa Lia.
From stdpp Require Import base gmap strings list fin_maps sorting.

Local Open Scope Q_scope.

(** ** Numbers *)

(** An unsigned integer column read as a Python number. *)
Definition NQ (n : N) : Q := inject_Z (Z.of_N n).

(** A Python [int] used in float arithmetic. *)
Definition ZQ (z : Z) : Q := inject_Z z.

Definition natQ (n : nat) : Q := inject_Z (Z.of_nat n).

Definition Qltb (x y : Q) : bool :=
  match Qcompare x y with Lt => true | _ => false end.

(** Python's [round(x)] on an exact value: nearest integer, ties to even. *)
Definition round_half_even (q : Q) : Z :=
  let f := Qfloor q in
  match Qcompare (q - inject_Z f) (1 # 2) with
  | Lt => f
  | Gt => (f + 1)%Z
  | Eq => if Z.even f then f else (f + 1)%Z
  end.

(** [round(x, 2)] of the aggregator, taken on the exact product.  Python
    rounds the double that holds the product; the call is reached only
    after the network scorer returned, and no statement below is about
    its value. *)
Definition round2 (q : Q) : Q := inject_Z (round_half_even (q * 100)) / 100.

(** ** Doubles *)

Definition pow2 (e : Z) : Q := Qpower 2 e.

(** The binary exponent of a positive value: the [k] with
    [2^k <= q < 2^(k+1)]. *)
Definition binary_exponent (q : Q) : Z :=
  let k := (Z.log2 (Qnum q) - Z.log2 (Zpos (Qden q)))%Z in
  if Qle_bool (pow2 k) q then k else (k - 1)%Z.

(** A positive value rounded to 53 significant bits, ties to even. *)
Definition fl_pos (q : Q) : Q :=
  let e := (binary_exponent q - 52)%Z in
  inject_Z (round_half_even (q / pow2 e)) * pow2 e.

(** The nearest IEEE 754 binary64 number, ties to even: the result of a
    cast to a double and of a division of doubles.  The values rounded
    here are stored 64-bit integers and their quotients by counts, out of
    reach of overflow and of subnormal numbers. *)
Definition fl (q : Q) : Q :=
  match Qcompare q 0 with
  | Eq => 0
  | Gt => fl_pos q
  | Lt => - fl_pos (- q)
  end.

(** [float(n)] in Python and [CAST(n AS REAL)] in SQLite, for a stored
    integer. *)
Definition to_double (n : N) : Q := fl (NQ n).

(** [CAST(x AS INTEGER)] of a non-negative REAL, as SQLite's [%] applies it
    to its operands: the integer part, held at the largest 64-bit
    integer. *)
Definition sql_real_to_integer (x : Q) : Z :=
  Z.min (Qfloor x) 9223372036854775807.

(** ** Time *)

Definition timestamp := Z.
Bind Scope Z_scope with timestamp.

Definition us_per_second : Z := 1000000.
Definition us_per_minute : Z := 60 * us_per_second.
Definition us_per_hour : Z := 60 * us_per_minute.
Definition us_per_day : Z := 24 * us_per_hour.

(** [(t1 - t2).days] of a [timedelta]: the floor of the difference in days
    (negative differences have negative [days]). *)
Definition timedelta_days (t1 t2 : timestamp) : Z := ((t1 - t2) / us_per_day)%Z.

(** SQLite [DATE(ts)]: the calendar day, as a day number. *)
Definition sql_date (t : timestamp) : Z := (t / us_per_day)%Z.

(** SQLite [datetime(ts)]: the time truncated to whole seconds. *)
Definition sql_datetime (t : timestamp) : Z := (t / us_per_second)%Z.

(** SQLite [CAST(strftime('%H', ts) AS INTEGER)]. *)
Definition sql_hour (t : timestamp) : Z := ((t mod us_per_day) / us_per_hour)%Z.

(** The two clocks a run reads: [datetime.now()] on the Python side and
    ['now'] inside SQLite. *)
Record Clock := {
  py_now : timestamp;
  sql_now : timestamp
}.

(** ** The store *)

Definition address := string.

Record Account := {
  a_address : address;
  a_balance : N;
  a_identity_display : option string;
  a_created_at : timestamp
}.

Record Transfer := {
  t_from_address : address;
  t_to_address : address;
  t_value : N;
  t_timestamp : timestamp
}.

Record AccountRelationship := {
  ar_from_address : address;
  ar_to_address : address;
  ar_total_volume : N;
  ar_transfer_count : N;
  ar_created_at : option timestamp
}.

Record NetworkMetrics := {
  nm_degree_centrality : Q;
  nm_betweenness_centrality : Q;
  nm_closeness_centrality : Q;
  nm_clustering_coefficient : Q;
  nm_pagerank : Q;
  nm_common_neighbors_avg : Q;
  nm_updated_at : timestamp
}.

(** Modelled from the spec: the schema (DDL) of the four tables is not part
    of the sources.  Following the data model, [address] is the key of
    [accounts] and of [account_network_metrics] (one row per account, so
    that table is a finite map), [(from_address, to_address)] is the key
    of [account_relationships], the integer columns hold unsigned amounts
    and counts, and the only nullable column read by the scorer is the
    relationship's [created_at], which the code tests before parsing. *)
Record Store := {
  accounts : list Account;
  transfers : list Transfer;
  account_relationships : list AccountRelationship;
  account_network_metrics : gmap address NetworkMetrics
}.

(** ** Breakdown records *)

#[local] Set Warnings "-register-all".

Inductive value :=
| VNum (q : Q)
| VInt (z : Z)
| VBool (b : bool)
| VDict (d : list (string * value)).

Definition Dict := list (string * value).

Fixpoint dict_get (k : string) (d : Dict) : option value :=
  match d with
  | [] => None
  | (k', v) :: d' => if String.eqb k k' then Some v else dict_get k d'
  end.

(** ** Outcomes *)

(** What a call returns to its caller: a value, or an exception that
    propagates. *)
Inductive outcome (A : Type) :=
| Ok (a : A)
| Raise (e : string).
Arguments Ok {A} a.
Arguments Raise {A} e.

Definition is_raise {A} (o : outcome A) : bool :=
  match o with Raise _ => true | Ok _ => false end.

(** ** Queries shared by the scorers *)

Definition is_pair (from_addr to_addr : address) (r : AccountRelationship) : bool :=
  bool_decide (ar_from_address r = from_addr) && bool_decide (ar_to_address r = to_addr).

(** [... FROM account_relationships WHERE from_address = ? AND to_address = ?]
    followed by [fetchone()]. *)
Definition find_relationship (st : Store) (from_addr to_addr : address)
  : option AccountRelationship :=
  List.find (is_pair from_addr to_addr) (account_relationships st).

(** [LEFT JOIN accounts a ON ... = a.address] / [FROM accounts WHERE address = ?]. *)
Definition find_account (st : Store) (addr : address) : option Account :=
  List.find (fun a => bool_decide (a_address a = addr)) (accounts st).

(** [SUM(CASE WHEN cond THEN 1 ELSE 0 END)] over a non-empty table. *)
Definition count_where {A} (p : A -> bool) (rows : list A) : nat :=
  length (List.filter p rows).

(** ** Volume scorer *)

(** [CAST(total_volume AS REAL) < ?] *)
Definition volume_below (v : Q) (r : AccountRelationship) : bool :=
  Qltb (to_double (ar_total_volume r)) v.

(** [CAST(total_volume AS REAL) / NULLIF(transfer_count, 0) < ?]: the
    quotient is NULL on a row whose [transfer_count] is 0, and a NULL
    comparison falls to the [ELSE 0] branch; elsewhere it is the quotient
    of two doubles. *)
Definition avg_size_below (v : Q) (r : AccountRelationship) : bool :=
  if N.eqb (ar_transfer_count r) 0 then false
  else Qltb (fl (to_double (ar_total_volume r) / to_double (ar_transfer_count r))) v.

(** [total_rel = max(stats['total_relationships'], 1)] *)
Definition total_rel (st : Store) : nat :=
  Nat.max (length (account_relationships st)) 1.

(** [stats['volume_rank'] / total_rel] *)
Definition volume_percentile (st : Store) (total_volume : Q) : Q :=
  natQ (count_where (volume_below total_volume) (account_relationships st))
  / natQ (total_rel st).

(** [stats['avg_size_rank'] / total_rel] *)
Definition avg_size_percentile (st : Store) (avg_transfer_size : Q) : Q :=
  natQ (count_where (avg_size_below avg_transfer_size) (account_relationships st))
  / natQ (total_rel st).

Definition calculate_volume_score (st : Store) (from_addr to_addr : address)
  : Q * Dict :=
  match find_relationship st from_addr to_addr with
  | None => (0, [])
  | Some row =>
    let total_volume := to_double (ar_total_volume row) in
    let transfer_count := ar_transfer_count row in
    let sender_balance :=
      match find_account st from_addr with
      | Some a => to_double (a_balance a)
      | None => 0
      end in
    let avg_transfer_size :=
      fl (total_volume / to_double (N.max transfer_count 1)) in
    let volume_percentile := volume_percentile st total_volume in
    let avg_size_percentile := avg_size_percentile st avg_transfer_size in
    let volume_component := Qmin 40 (volume_percentile * 40) in
    let avg_size_component := Qmin 30 (avg_size_percentile * 30) in
    let relative_volume_component :=
      if Qltb 0 sender_balance
      then Qmin 30 ((total_volume / sender_balance) * 100)
      else 15 in
    let total_score := volume_component + avg_size_component + relative_volume_component in
    (Qmin 100 total_score,
     [("total_volume", VNum total_volume);
      ("avg_transfer_size", VNum avg_transfer_size);
      ("volume_percentile", VNum volume_percentile);
      ("avg_size_percentile", VNum avg_size_percentile);
      ("volume_component", VNum volume_component);
      ("avg_size_component", VNum avg_size_component);
      ("relative_volume_component", VNum relative_volume_component)])
  end.

(** ** Frequency scorer *)

(** The rows of [transfers] joined to the relationship [(from, to)]. *)
Definition pair_transfers (st : Store) (from_addr to_addr : address) : list Transfer :=
  List.filter
    (fun t => bool_decide (t_from_address t = from_addr)
              && bool_decide (t_to_address t = to_addr))
    (transfers st).

(** [MIN(t.timestamp)] and [MAX(t.timestamp)] of a non-empty group. *)
Definition min_timestamp (t0 : timestamp) (ts : list timestamp) : timestamp :=
  fold_right Z.min t0 ts.
Definition max_timestamp (t0 : timestamp) (ts : list timestamp) : timestamp :=
  fold_right Z.max t0 ts.

(** One row of the grouped join of [account_relationships] with
    [transfers]: present only when the relationship row exists and at
    least one transfer of the pair does. *)
Record TransferStats := {
  ts_transfer_count : N;
  ts_first_transfer : timestamp;
  ts_last_transfer : timestamp;
  ts_transfers : list Transfer
}.

Definition transfer_stats (st : Store) (from_addr to_addr : address)
  : option TransferStats :=
  match find_relationship st from_addr to_addr with
  | None => None
  | Some ar =>
    match pair_transfers st from_addr to_addr with
    | [] => None
    | t :: ts =>
      let stamps := map t_timestamp ts in
      Some {| ts_transfer_count := ar_transfer_count ar;
              ts_first_transfer := min_timestamp (t_timestamp t) stamps;
              ts_last_transfer := max_timestamp (t_timestamp t) stamps;
              ts_transfers := t :: ts |}
    end
  end.

(** [COUNT(DISTINCT DATE(t.timestamp))] *)
Definition unique_days (ts : list Transfer) : nat :=
  length (remove_dups (map (fun t => sql_date (t_timestamp t)) ts)).

(** [stats['count_rank'] / total_rel] *)
Definition count_percentile (st : Store) (transfer_count : N) : Q :=
  natQ (count_where (fun r => N.ltb (ar_transfer_count r) transfer_count)
          (account_relationships st))
  / natQ (total_rel st).

Definition calculate_frequency_score (st : Store) (from_addr to_addr : address)
  : Q * Dict :=
  match transfer_stats st from_addr to_addr with
  | None => (0, [])
  | Some row =>
    if N.eqb (ts_transfer_count row) 0 then (0, [])
    else
      let transfer_count := ts_transfer_count row in
      let first_transfer := ts_first_transfer row in
      let last_transfer := ts_last_transfer row in
      let unique_days := unique_days (ts_transfers row) in
      let days_active := Z.max (timedelta_days last_transfer first_transfer + 1) 1 in
      let transfers_per_day := NQ transfer_count / ZQ days_active in
      let count_percentile := count_percentile st transfer_count in
      let frequency_percentile := Qmin 1 (transfers_per_day / 10) in
      let count_component := Qmin 40 (count_percentile * 40) in
      let frequency_component := Qmin 30 (frequency_percentile * 30) in
      let consistency_component := Qmin 30 ((natQ unique_days / ZQ days_active) * 30) in
      let total_score := count_component + frequency_component + consistency_component in
      (Qmin 100 total_score,
       [("transfer_count", VInt (Z.of_N transfer_count));
        ("days_active", VInt days_active);
        ("transfers_per_day", VNum transfers_per_day);
        ("unique_days", VInt (Z.of_nat unique_days));
        ("count_percentile", VNum count_percentile);
        ("frequency_percentile", VNum frequency_percentile);
        ("count_component", VNum count_component);
        ("frequency_component", VNum frequency_component);
        ("consistency_component", VNum consistency_component)])
  end.

(** ** Temporal scorer *)

(** [COUNT(CASE WHEN datetime(t.timestamp) >= datetime('now', '-N days') THEN 1 END)] *)
Definition transfers_since (clk : Clock) (days : Z) (ts : list Transfer) : nat :=
  count_where
    (fun t => Z.leb (sql_datetime (sql_now clk) - days * 86400)
                    (sql_datetime (t_timestamp t)))
    ts.

(** The recency step function, first match wins. *)
Definition recency_component (days_since_last : Z) : Q :=
  if Z.leb days_since_last 1 then 40
  else if Z.leb days_since_last 7 then 35
  else if Z.leb days_since_last 30 then 25
  else if Z.leb days_since_last 90 then 15
  else if Z.leb days_since_last 365 then 5
  else 0.

Definition calculate_temporal_score (st : Store) (clk : Clock)
    (from_addr to_addr : address) : Q * Dict :=
  match transfer_stats st from_addr to_addr with
  | None => (0, [])
  | Some row =>
    let last_transfer := ts_last_transfer row in
    let first_transfer := ts_first_transfer row in
    let days_since_last := timedelta_days (py_now clk) last_transfer in
    let relationship_days := (timedelta_days last_transfer first_transfer + 1)%Z in
    let transfers_last_week := transfers_since clk 7 (ts_transfers row) in
    let transfers_last_month := transfers_since clk 30 (ts_transfers row) in
    let recency_component := recency_component days_since_last in
    let duration_component := Qmin 30 ((ZQ relationship_days / 365) * 30) in
    let activity_component :=
      if N.ltb 0 (ts_transfer_count row) then
        let recent_week_ratio := natQ transfers_last_week / NQ (ts_transfer_count row) in
        let recent_month_ratio := natQ transfers_last_month / NQ (ts_transfer_count row) in
        Qmin 30 (recent_week_ratio * 15 + recent_month_ratio * 15)
      else 0 in
    let total_score := recency_component + duration_component + activity_component in
    (total_score,
     [("days_since_last", VInt days_since_last);
      ("relationship_days", VInt relationship_days);
      ("transfers_last_week", VInt (Z.of_nat transfers_last_week));
      ("transfers_last_month", VInt (Z.of_nat transfers_last_month));
      ("recency_component", VNum recency_component);
      ("duration_component", VNum duration_component);
      ("activity_component", VNum activity_component)])
  end.

(** ** Network scorer *)

(** The [CASE] of the common-connections query: the first matching [WHEN]
    gives the counted address, no match gives NULL. *)
Definition common_connection_case (r1 r2 : AccountRelationship) : option address :=
  if bool_decide (ar_to_address r1 = ar_from_address r2) then Some (ar_to_address r1)
  else if bool_decide (ar_from_address r1 = ar_to_address r2) then Some (ar_from_address r1)
  else None.

(** The [WHERE] clause of the common-connections query. *)
Definition common_connection_where (from_addr to_addr : address)
    (r1 r2 : AccountRelationship) : bool :=
  bool_decide (ar_from_address r1 = from_addr)
  && bool_decide (ar_to_address r2 = to_addr)
  && (bool_decide (ar_to_address r1 = ar_from_address r2)
      || bool_decide (ar_from_address r1 = ar_to_address r2)).

(** The non-NULL values of the [CASE] over the self-join
    [account_relationships r1, account_relationships r2]. *)
Definition common_connection_values (st : Store) (from_addr to_addr : address)
  : list address :=
  r1 ← account_relationships st;
  r2 ← account_relationships st;
  if common_connection_where from_addr to_addr r1 r2
  then option_list (common_connection_case r1 r2)
  else [].

(** [COUNT(DISTINCT CASE ... END)] *)
Definition common_connections (st : Store) (from_addr to_addr : address) : nat :=
  length (remove_dups (common_connection_values st from_addr to_addr)).

(** An operand of a join condition, as the text of a statement has it:
    a bound parameter [?], a column [t.c], or a parameter written where
    the name of a column belongs, [t.?]. *)
Inductive operand :=
| Bound
| Column (table column : string)
| BoundColumn (table : string).

Record LeftJoin := {
  join_table : string;
  join_alias : string;
  on_left : operand;
  on_right : operand
}.

(** The joins of the metrics statement, as written:
    [FROM (SELECT ?) as f
     LEFT JOIN account_network_metrics nm1 ON f.? = nm1.address
     LEFT JOIN account_network_metrics nm2 ON ? = nm2.address]. *)
Definition metrics_statement : list LeftJoin :=
  [{| join_table := "account_network_metrics"; join_alias := "nm1";
      on_left := BoundColumn "f"; on_right := Column "nm1" "address" |};
   {| join_table := "account_network_metrics"; join_alias := "nm2";
      on_left := Bound; on_right := Column "nm2" "address" |}].

Definition operand_parses (o : operand) : bool :=
  match o with
  | BoundColumn _ => false
  | Bound | Column _ _ => true
  end.

(** [cursor.execute] prepares the statement before it reads a row.
    SQLite's grammar takes a name after the dot of a qualified column: a
    text with a parameter there is a syntax error, raised as
    [sqlite3.OperationalError]. *)
Definition sqlite_prepare (joins : list LeftJoin) : outcome unit :=
  if forallb (fun j => operand_parses (on_left j) && operand_parses (on_right j)) joins
  then Ok ()
  else Raise "sqlite3.OperationalError".

(** The row of the metrics statement: NULL columns where a [LEFT JOIN]
    finds no row. *)
Record MetricsRow := {
  mr_from_degree : option Q;
  mr_to_degree : option Q;
  mr_from_pagerank : option Q;
  mr_to_pagerank : option Q
}.

(** [cursor.execute(<metrics statement>, (from_addr, from_addr, to_addr))]
    followed by [fetchone()].  A prepared statement of this shape reads,
    for each join, the metrics row of the address on the left of its
    condition. *)
Definition select_metrics (st : Store) (from_addr to_addr : address)
  : outcome MetricsRow :=
  match sqlite_prepare metrics_statement with
  | Raise e => Raise e
  | Ok _ =>
    let nm1 := account_network_metrics st !! from_addr in
    let nm2 := account_network_metrics st !! to_addr in
    Ok {| mr_from_degree := nm_degree_centrality <$> nm1;
          mr_to_degree := nm_degree_centrality <$> nm2;
          mr_from_pagerank := nm_pagerank <$> nm1;
          mr_to_pagerank := nm_pagerank <$> nm2 |}
  end.

Definition calculate_network_score (st : Store) (from_addr to_addr : address)
  : outcome (Q * Dict) :=
  let common_connections := common_connections st from_addr to_addr in
  match select_metrics st from_addr to_addr with
  | Raise e => Raise e
  | Ok metrics =>
    let from_degree := default 0 (mr_from_degree metrics) in
    let to_degree := default 0 (mr_to_degree metrics) in
    let from_pagerank := default 0 (mr_from_pagerank metrics) in
    let to_pagerank := default 0 (mr_to_pagerank metrics) in
    let common_connections_component := Qmin 40 (natQ common_connections * 5) in
    let centrality_component := Qmin 30 (((from_degree + to_degree) / 2) * 100) in
    let importance_component := Qmin 30 (((from_pagerank + to_pagerank) / 2) * 1000) in
    let total_score :=
      common_connections_component + centrality_component + importance_component in
    Ok (Qmin 100 total_score,
        [("common_connections", VInt (Z.of_nat common_connections));
         ("avg_degree_centrality", VNum ((from_degree + to_degree) / 2));
         ("avg_pagerank", VNum ((from_pagerank + to_pagerank) / 2));
         ("common_connections_component", VNum common_connections_component);
         ("centrality_component", VNum centrality_component);
         ("importance_component", VNum importance_component)])
  end.

(** ** Risk scorer *)

(** The Julian day number of the origin of the time line,
    0001-01-01T00:00:00 ([datetime.min]), in milliseconds. *)
Definition julian_ms_origin : Z := 148731163200000.

(** SQLite reads the seconds field of a timestamp, fraction included, as
    a double [s] (the digits of the fraction over their power of ten,
    added to the whole seconds) and keeps [(int)(s * 1000 + 0.5)]
    milliseconds of it. *)
Definition sqlite_seconds_ms (t : timestamp) : Z :=
  let field := (t mod us_per_minute)%Z in
  let fraction := fl (inject_Z (field mod us_per_second) / 1000000) in
  let s := fl (inject_Z (field / us_per_second) + fraction) in
  Qfloor (fl (fl (s * 1000) + (1 # 2))).

(** The time of a timestamp as SQLite holds it: whole milliseconds of
    the Julian day. *)
Definition sqlite_julian_ms (t : timestamp) : Z :=
  (t / us_per_minute * 60000 + sqlite_seconds_ms t + julian_ms_origin)%Z.

(** [julianday(ts)]: the milliseconds over those of a day, a double. *)
Definition julianday (t : timestamp) : Q :=
  fl (inject_Z (sqlite_julian_ms t) / 86400000).

(** [ABS(julianday(t2.timestamp) - julianday(t1.timestamp)) * 24 * 60 < 5],
    every operation on doubles. *)
Definition within_five_minutes (t1 t2 : timestamp) : bool :=
  Qltb (fl (fl (Qabs (fl (julianday t2 - julianday t1)) * 24) * 60)) 5.

(** Pairs [t1 JOIN t2 ON t1.to_address = t2.from_address] leaving
    [from_addr], arriving at [to_addr], less than five minutes apart. *)
Definition rapid_transfers (st : Store) (from_addr to_addr : address) : nat :=
  length (
    t1 ← transfers st;
    t2 ← transfers st;
    if bool_decide (t_to_address t1 = t_from_address t2)
       && bool_decide (t_from_address t1 = from_addr)
       && bool_decide (t_to_address t2 = to_addr)
       && within_five_minutes (t_timestamp t1) (t_timestamp t2)
    then [(t1, t2)] else []).

(** [CAST(value AS REAL) % m = 0]: the value as a double, and [%] on the
    integers its operands cast to. *)
Definition real_mod_is_0 (value : N) (m : Z) : bool :=
  Z.eqb (sql_real_to_integer (to_double value) mod m) 0.

Definition is_round_number (v : N) : bool :=
  real_mod_is_0 v 1000000000000
  || real_mod_is_0 v 10000000000000
  || real_mod_is_0 v 100000000000000.

Definition round_numbers (st : Store) (from_addr to_addr : address) : nat :=
  count_where (fun t => is_round_number (t_value t))
    (pair_transfers st from_addr to_addr).

Definition unusual_time (st : Store) (from_addr to_addr : address) : nat :=
  count_where
    (fun t => Z.leb 2 (sql_hour (t_timestamp t)) && Z.leb (sql_hour (t_timestamp t)) 5)
    (pair_transfers st from_addr to_addr).

(** [new_account_flag]: both rows and the relationship's [created_at]
    must be there; the difference is the signed [timedelta.days]. *)
Definition new_account_flag (account_data : option Account)
    (rel_data : AccountRelationship) : nat :=
  match account_data, ar_created_at rel_data with
  | Some acc, Some rel_created =>
    let acc_created := a_created_at acc in
    if Z.ltb (timedelta_days rel_created acc_created) 7 then 1%nat else 0%nat
  | _, _ => 0%nat
  end.

Definition calculate_risk_score (st : Store) (from_addr to_addr : address)
  : Q * Dict :=
  match find_relationship st from_addr to_addr with
  | None => (0, [])
  | Some rel_data =>
    let transfer_count := ar_transfer_count rel_data in
    let rapid_transfers := rapid_transfers st from_addr to_addr in
    let round_numbers := round_numbers st from_addr to_addr in
    let unusual_time := unusual_time st from_addr to_addr in
    let account_data := find_account st to_addr in
    let new_account_flag := new_account_flag account_data rel_data in
    let rapid_transfer_risk :=
      Qmin 30 ((natQ rapid_transfers / NQ (N.max transfer_count 1)) * 100) in
    let round_number_risk :=
      Qmin 25 ((natQ round_numbers / NQ (N.max transfer_count 1)) * 50) in
    let time_anomaly_risk :=
      Qmin 25 ((natQ unusual_time / NQ (N.max transfer_count 1)) * 50) in
    let new_account_risk := natQ new_account_flag * 20 in
    let total_risk :=
      rapid_transfer_risk + round_number_risk + time_anomaly_risk + new_account_risk in
    (Qmin 100 total_risk,
     [("rapid_transfers", VInt (Z.of_nat rapid_transfers));
      ("round_numbers", VInt (Z.of_nat round_numbers));
      ("unusual_time_transfers", VInt (Z.of_nat unusual_time));
      ("new_account_interaction", VBool (negb (Nat.eqb new_account_flag 0)));
      ("rapid_transfer_risk", VNum rapid_transfer_risk);
      ("round_number_risk", VNum round_number_risk);
      ("time_anomaly_risk", VNum time_anomaly_risk);
      ("new_account_risk", VNum new_account_risk)])
  end.

(** ** Composite aggregator *)

Record RelationshipScore := {
  from_address : address;
  to_address : address;
  volume_score : Q;
  frequency_score : Q;
  temporal_score : Q;
  network_score : Q;
  risk_score : Q;
  total_score : Q;
  details : Dict
}.

Definition weight_volume : Q := 25 # 100.
Definition weight_frequency : Q := 25 # 100.
Definition weight_temporal : Q := 20 # 100.
Definition weight_network : Q := 30 # 100.

Definition weights : Dict :=
  [("volume", VNum weight_volume);
   ("frequency", VNum weight_frequency);
   ("temporal", VNum weight_temporal);
   ("network", VNum weight_network)].

Definition base_score_of (v f t n : Q) : Q :=
  v * weight_volume + f * weight_frequency + t * weight_temporal + n * weight_network.

(** [risk_multiplier = 1 - (risk_score / 200)] *)
Definition risk_multiplier_of (risk : Q) : Q := 1 - risk / 200.

(** The aggregator from its weights on (l.394-435): the weighted sum, the
    risk penalty and the record, from what the five scorers returned. *)
Definition aggregate (from_addr to_addr : address)
    (volume frequency temporal network risk : Q * Dict) : RelationshipScore :=
  let '(volume_score, volume_details) := volume in
  let '(frequency_score, frequency_details) := frequency in
  let '(temporal_score, temporal_details) := temporal in
  let '(network_score, network_details) := network in
  let '(risk_score, risk_details) := risk in
  let base_score :=
    base_score_of volume_score frequency_score temporal_score network_score in
  let risk_multiplier := risk_multiplier_of risk_score in
  let total_score := round2 (base_score * risk_multiplier) in
  {| from_address := from_addr;
     to_address := to_addr;
     volume_score := volume_score;
     frequency_score := frequency_score;
     temporal_score := temporal_score;
     network_score := network_score;
     risk_score := risk_score;
     total_score := total_score;
     details :=
       [("volume", VDict volume_details);
        ("frequency", VDict frequency_details);
        ("temporal", VDict temporal_details);
        ("network", VDict network_details);
        ("risk", VDict risk_details);
        ("weights", VDict weights);
        ("base_score", VNum base_score);
        ("risk_multiplier", VNum risk_multiplier)] |}.

(** The five scorers are called in this order; an exception of one of
    them ends the call. *)
Definition calculate_total_score (st : Store) (clk : Clock)
    (from_addr to_addr : address) : outcome RelationshipScore :=
  let volume := calculate_volume_score st from_addr to_addr in
  let frequency := calculate_frequency_score st from_addr to_addr in
  let temporal := calculate_temporal_score st clk from_addr to_addr in
  match calculate_network_score st from_addr to_addr with
  | Raise e => Raise e
  | Ok network =>
    let risk := calculate_risk_score st from_addr to_addr in
    Ok (aggregate from_addr to_addr volume frequency temporal network risk)
  end.

(** ** Centrality engine *)

Record EdgeAttr := {
  weight : Q;
  edge_transfers : N
}.

(** [nx.DiGraph]: the nodes in insertion order and the attributed edges. *)
Record DiGraph := {
  g_nodes : list address;
  g_edges : gmap (address * address) EdgeAttr
}.

Definition empty_graph : DiGraph := {| g_nodes := []; g_edges := ∅ |}.

Definition add_node (nodes : list address) (n : address) : list address :=
  if bool_decide (n ∈ nodes) then nodes else nodes ++ [n].

(** [G.add_edge(u, v, weight=..., transfers=...)] *)
Definition add_edge (G : DiGraph) (u v : address) (attr : EdgeAttr) : DiGraph :=
  {| g_nodes := add_node (add_node (g_nodes G) u) v;
     g_edges := <[(u, v) := attr]> (g_edges G) |}.

(** The loop over [cursor.fetchall()] that builds the graph. *)
Definition build_graph (rows : list AccountRelationship) : DiGraph :=
  fold_left
    (fun G row =>
       add_edge G (ar_from_address row) (ar_to_address row)
         {| weight := to_double (ar_total_volume row);
            edge_transfers := ar_transfer_count row |})
    rows empty_graph.

(** [set(G.neighbors(n))] (the successors) and [set(G.predecessors(n))]. *)
Definition successors (G : DiGraph) (n : address) : gset address :=
  list_to_set (map snd (List.filter (fun e => bool_decide (e.1 = n))
                          (elements (dom (g_edges G))))).
Definition predecessors (G : DiGraph) (n : address) : gset address :=
  list_to_set (map fst (List.filter (fun e => bool_decide (e.2 = n))
                          (elements (dom (g_edges G))))).

Definition all_neighbors (G : DiGraph) (n : address) : gset address :=
  successors G n ∪ predecessors G n.

Definition sum_nat (l : list nat) : nat := fold_right Nat.add 0%nat l.

(** [np.mean(common_neighbors_counts) if common_neighbors_counts else 0] *)
Definition common_neighbors_avg (G : DiGraph) (node : address) : Q :=
  let neighbors := all_neighbors G node in
  let common_neighbors_counts :=
    map (fun neighbor => size (neighbors ∩ all_neighbors G neighbor))
        (elements neighbors) in
  match common_neighbors_counts with
  | [] => 0
  | _ => natQ (sum_nat common_neighbors_counts) / natQ (length common_neighbors_counts)
  end.

(** The library and the storage layer the engine runs on.  The graph
    algorithms are networkx's, called with the keyword arguments of the
    source ([nx_clustering] stands for [nx.clustering] on
    [G.to_undirected()]); each may raise.  [select_fault] is the
    error, if any, that the storage layer raises on the [SELECT] of the
    relationships, [execute_fault n] the one it raises on the
    [INSERT OR REPLACE] of node [n]. *)
Class Runtime := {
  nx_degree_centrality : DiGraph -> outcome (gmap address Q);
  nx_betweenness_centrality : DiGraph -> outcome (gmap address Q);
  nx_closeness_centrality : DiGraph -> outcome (gmap address Q);
  nx_pagerank : DiGraph -> outcome (gmap address Q);
  nx_clustering : DiGraph -> outcome (gmap address Q);
  select_fault : option string;
  execute_fault : address -> option string
}.

(** A connection opened with the default isolation level: statements that
    write run in an implicit transaction, visible to this connection only
    ([working]), until [commit()] publishes them ([committed] is what
    every other reader of the database file sees). *)
Record Connection := {
  committed : Store;
  working : Store
}.

Definition commit (c : Connection) : Connection :=
  {| committed := working c; working := working c |}.

Definition set_metrics (st : Store) (tbl : gmap address NetworkMetrics) : Store :=
  {| accounts := accounts st;
     transfers := transfers st;
     account_relationships := account_relationships st;
     account_network_metrics := tbl |}.

(** A computation on the connection that may raise. *)
Definition M (A : Type) : Type := Connection -> Connection * outcome A.

#[global] Instance M_ret : MRet M := fun A a c => (c, Ok a).
#[global] Instance M_bind : MBind M := fun A B k m c =>
  match m c with
  | (c', Ok a) => k a c'
  | (c', Raise e) => (c', Raise e)
  end.

(** The result of a library call, raised or returned in the computation. *)
Definition lift {A} (o : outcome A) : M A := fun c => (c, o).

Definition get0 (d : gmap address Q) (node : address) : Q :=
  default 0 (d !! node).

Section Engine.
Context `{Runtime}.

(** [SELECT ... FROM account_relationships] on this connection. *)
Definition select_relationships : M (list AccountRelationship) :=
  fun c =>
    match select_fault with
    | Some e => (c, Raise e)
    | None => (c, Ok (account_relationships (working c)))
    end.

(** [cursor.execute("INSERT OR REPLACE INTO account_network_metrics ...")] *)
Definition execute_upsert (node : address) (row : NetworkMetrics) : M unit :=
  fun c =>
    match execute_fault node with
    | Some e => (c, Raise e)
    | None =>
      ({| committed := committed c;
          working := set_metrics (working c)
                       (<[node := row]> (account_network_metrics (working c))) |},
       Ok ())
    end.

(** [self.conn.commit()] *)
Definition conn_commit : M unit := fun c => (commit c, Ok ()).

(** The row written for one node. *)
Definition metrics_row (clk : Clock) (G : DiGraph)
    (degree_centrality betweenness_centrality closeness_centrality
       clustering pagerank : gmap address Q)
    (node : address) : NetworkMetrics :=
  {| nm_degree_centrality := get0 degree_centrality node;
     nm_betweenness_centrality := get0 betweenness_centrality node;
     nm_closeness_centrality := get0 closeness_centrality node;
     nm_clustering_coefficient := get0 clustering node;
     nm_pagerank := get0 pagerank node;
     nm_common_neighbors_avg := common_neighbors_avg G node;
     nm_updated_at := (sql_datetime (sql_now clk) * us_per_second)%Z |}.

(** The [for node in G.nodes()] loop. *)
Fixpoint upsert_nodes (row_of : address -> NetworkMetrics) (nodes : list address)
  : M unit :=
  match nodes with
  | [] => mret ()
  | node :: rest =>
    execute_upsert node (row_of node) ;;
    upsert_nodes row_of rest
  end.

Definition update_network_metrics (clk : Clock) : M unit :=
  rows ← select_relationships ;
  let G := build_graph rows in
  degree_centrality ← lift (nx_degree_centrality G) ;
  betweenness_centrality ← lift (nx_betweenness_centrality G) ;
  closeness_centrality ← lift (nx_closeness_centrality G) ;
  pagerank ← lift (nx_pagerank G) ;
  clustering ← lift (nx_clustering G) ;
  upsert_nodes
    (metrics_row clk G degree_centrality betweenness_centrality
       closeness_centrality clustering pagerank)
    (g_nodes G) ;;
  conn_commit.

(** The metrics table after the loop wrote every node. *)
Definition upsert_table (row_of : address -> NetworkMetrics) (nodes : list address)
    (tbl : gmap address NetworkMetrics) : gmap address NetworkMetrics :=
  fold_left (fun t node => <[node := row_of node]> t) nodes tbl.

Definition with_working_metrics (c : Connection)
    (tbl : gmap address NetworkMetrics) : Connection :=
  {| committed := committed c; working := set_metrics (working c) tbl |}.

(** The graph a run on this connection builds. *)
Definition run_graph (c : Connection) : DiGraph :=
  build_graph (account_relationships (working c)).

(** Some step of the run raises: the read of the relationships, one of
    the five graph algorithms, or the write of one of the nodes. *)
Definition run_fails (c : Connection) : Prop :=
  is_Some select_fault
  \/ is_raise (nx_degree_centrality (run_graph c)) = true
  \/ is_raise (nx_betweenness_centrality (run_graph c)) = true
  \/ is_raise (nx_closeness_centrality (run_graph c)) = true
  \/ is_raise (nx_pagerank (run_graph c)) = true
  \/ is_raise (nx_clustering (run_graph c)) = true
  \/ Exists (fun node => is_Some (execute_fault node)) (g_nodes (run_graph c)).

(** What a run that reaches its commit has computed and written. *)
Record RunResult := {
  rr_degree : gmap address Q;
  rr_betweenness : gmap address Q;
  rr_closeness : gmap address Q;
  rr_pagerank : gmap address Q;
  rr_clustering : gmap address Q
}.

Definition run_rows (clk : Clock) (c : Connection) (rr : RunResult)
  : address -> NetworkMetrics :=
  metrics_row clk (run_graph c) (rr_degree rr) (rr_betweenness rr)
    (rr_closeness rr) (rr_clustering rr) (rr_pagerank rr).

Definition run_computes (c : Connection) (rr : RunResult) : Prop :=
  select_fault = None
  /\ nx_degree_centrality (run_graph c) = Ok (rr_degree rr)
  /\ nx_betweenness_centrality (run_graph c) = Ok (rr_betweenness rr)
  /\ nx_closeness_centrality (run_graph c) = Ok (rr_closeness rr)
  /\ nx_pagerank (run_graph c) = Ok (rr_pagerank rr)
  /\ nx_clustering (run_graph c) = Ok (rr_clustering rr)
  /\ Forall (fun node => execute_fault node = None) (g_nodes (run_graph c)).

End Engine.

(** * Specified behaviour *)

(** ** Ranges *)

Definition in_range (q : Q) : Prop := 0 <= q <= 100.

Definition in_unit_interval (q : Q) : Prop := 0 <= q /\ q < 1.

(** ** A pair without a relationship row *)

Definition zero_and_empty (r : Q * Dict) : Prop := r.1 == 0 /\ r.2 = [].

(** The scenario as the specification words it: every scorer gives zero
    with an empty breakdown and the total is zero. *)
Definition missing_row_all_zero (st : Store) (clk : Clock) (a b : address) : Prop :=
  find_relationship st a b = None ->
  zero_and_empty (calculate_volume_score st a b)
  /\ zero_and_empty (calculate_frequency_score st a b)
  /\ zero_and_empty (calculate_temporal_score st clk a b)
  /\ (exists r, calculate_network_score st a b = Ok r /\ zero_and_empty r)
  /\ zero_and_empty (calculate_risk_score st a b)
  /\ (exists r, calculate_total_score st clk a b = Ok r /\ total_score r == 0).

(** ** Total score against base score *)

Definition base_score (r : RelationshipScore) : Q :=
  base_score_of (volume_score r) (frequency_score r) (temporal_score r) (network_score r).

(** The invariant as the specification words it: the aggregator produces
    a total score, and it is at most the base score. *)
Definition total_le_base (st : Store) (clk : Clock) (a b : address) : Prop :=
  exists r, calculate_total_score st clk a b = Ok r
            /\ total_score r <= base_score r.

(** ** Scores in range *)

(** The invariant as the specification words it: the five scorers and the
    aggregator give values in [0,100]. *)
Definition every_score_in_range (st : Store) (clk : Clock) (a b : address) : Prop :=
  in_range (calculate_volume_score st a b).1
  /\ in_range (calculate_frequency_score st a b).1
  /\ in_range (calculate_temporal_score st clk a b).1
  /\ (exists r, calculate_network_score st a b = Ok r /\ in_range r.1)
  /\ in_range (calculate_risk_score st a b).1
  /\ (exists r, calculate_total_score st clk a b = Ok r /\ in_range (total_score r)).

(** ** The risk multiplier *)

(** The aggregator as the specification words it: for the pair it
    computes the multiplier [1 - risk_score/200] and reports it. *)
Definition computes_risk_multiplier (st : Store) (clk : Clock) (a b : address) : Prop :=
  exists r, calculate_total_score st clk a b = Ok r
            /\ dict_get "risk_multiplier" (details r)
               = Some (VNum (1 - risk_score r / 200)).

(** ** Common connections *)

(** An edge [u -> v] of the relationship graph. *)
Definition has_edge (st : Store) (u v : address) : bool :=
  existsb (is_pair u v) (account_relationships st).

(** Every account that appears in a relationship. *)
Definition endpoints (st : Store) : gset address :=
  list_to_set (r ← account_relationships st; [ar_from_address r; ar_to_address r]).

(** The count as the specification words it: the accounts [X] with
    [A -> X] and [X -> B], or with [X -> A] and [B -> X]. *)
Definition common_connections_spec (st : Store) (a b : address) : nat :=
  size (filter
          (fun x => has_edge st a x && has_edge st x b
                    || has_edge st x a && has_edge st b x = true)
          (endpoints st)).

(** The intermediaries of the two-hop paths from [A] to [B]. *)
Definition two_hop_intermediaries (st : Store) (a b : address) : gset address :=
  filter (fun x => has_edge st a x && has_edge st x b = true) (endpoints st).

Definition common_connections_as_specified (st : Store) (a b : address) : Prop :=
  common_connections st a b = common_connections_spec st a b.

(** ** The percentile ranker *)

(** The ranker as the specification words it: the values of the population
    strictly below the input, over the size of the population. *)
Definition percentile_rank (v : Q) (population : list Q) : Q :=
  natQ (count_where (fun x => Qltb x v) population)
  / natQ (Nat.max (length population) 1).

(** The two reference populations as the specification words them: one
    value per row, the stored [total_volume] and the average transfer size
    [total_volume / max(transfer_count, 1)]. *)
Definition total_volume_population (st : Store) : list Q :=
  map (fun r => NQ (ar_total_volume r)) (account_relationships st).

Definition avg_transfer_size_of (r : AccountRelationship) : Q :=
  NQ (ar_total_volume r) / NQ (N.max (ar_transfer_count r) 1).

Definition avg_size_population (st : Store) : list Q :=
  map avg_transfer_size_of (account_relationships st).

(** The two ranks that the breakdown of the volume scorer reports. *)
Definition reported_ranks (st : Store) (a b : address) (volume_rank avg_size_rank : Q)
  : Prop :=
  dict_get "volume_percentile" (calculate_volume_score st a b).2
    = Some (VNum volume_rank)
  /\ dict_get "avg_size_percentile" (calculate_volume_score st a b).2
     = Some (VNum avg_size_rank).

Definition percentile_ranks_as_specified (st : Store) (a b : address) : Prop :=
  forall row, find_relationship st a b = Some row ->
    exists volume_rank avg_size_rank : Q,
      reported_ranks st a b volume_rank avg_size_rank
      /\ volume_rank
         == percentile_rank (NQ (ar_total_volume row)) (total_volume_population st)
      /\ avg_size_rank
         == percentile_rank (avg_transfer_size_of row) (avg_size_population st)
      /\ in_unit_interval volume_rank
      /\ in_unit_interval avg_size_rank.

(** What the query compares: the volumes as doubles, and, for the rows
    that have at least one transfer, the quotient of the volume by the
    count, both as doubles. *)
Definition total_volume_doubles (st : Store) : list Q :=
  map (fun r => to_double (ar_total_volume r)) (account_relationships st).

Definition avg_size_double (r : AccountRelationship) : Q :=
  fl (to_double (ar_total_volume r) / to_double (ar_transfer_count r)).

Definition defined_avg_size_doubles (st : Store) : list Q :=
  map avg_size_double
    (List.filter (fun r => negb (N.eqb (ar_transfer_count r) 0))
       (account_relationships st)).

(** ** A change of total volume *)

Definition with_volume (r : AccountRelationship) (v : N) : AccountRelationship :=
  {| ar_from_address := ar_from_address r;
     ar_to_address := ar_to_address r;
     ar_total_volume := v;
     ar_transfer_count := ar_transfer_count r;
     ar_created_at := ar_created_at r |}.

(** The table after the row of the pair received a new [total_volume];
    every other row, and every other column of that row, is kept. *)
Fixpoint set_total_volume (a b : address) (v : N) (rows : list AccountRelationship)
  : list AccountRelationship :=
  match rows with
  | [] => []
  | r :: rows' =>
    if is_pair a b r then with_volume r v :: rows'
    else r :: set_total_volume a b v rows'
  end.

Definition store_with_volume (st : Store) (a b : address) (v : N) : Store :=
  {| accounts := accounts st;
     transfers := transfers st;
     account_relationships := set_total_volume a b v (account_relationships st);
     account_network_metrics := account_network_metrics st |}.

(** ** The new-account flag *)

(** The rows of [accounts] stored for an address ([address] being the key
    of the table, at most one). *)
Definition account_rows (st : Store) (addr : address) : list Account :=
  List.filter (fun acc => bool_decide (a_address acc = addr)) (accounts st).

(** The receiving account [b] has a row, the relationship has a
    first-seen time, and the signed day difference between the
    relationship's and the account's [created_at] is below 7. *)
Definition new_account_condition (st : Store) (b : address)
    (rel_data : AccountRelationship) : Prop :=
  exists acc others rel_created,
    account_rows st b = acc :: others
    /\ ar_created_at rel_data = Some rel_created
    /\ (timedelta_days rel_created (a_created_at acc) < 7)%Z.

(** ** Recomputation *)





(** * Example stores, clocks and runtimes *)

(** A relationship row without a first-seen time. *)
Definition relationship (a b : address) (volume count : N) : AccountRelationship :=
  {| ar_from_address := a; ar_to_address := b;
     ar_total_volume := volume; ar_transfer_count := count;
     ar_created_at := None |}.

(** Both clocks at the origin of the time line. *)
Definition epoch : Clock := {| py_now := 0; sql_now := 0 |}.

(** Midnight of 2024-01-01. *)
Definition new_year_2024 : timestamp := 738885 * us_per_day.

Definition clock_day_6 : Clock :=
  {| py_now := 6 * us_per_day; sql_now := 6 * us_per_day |}.


Definition clock_day_60 : Clock :=
  {| py_now := 60 * us_per_day; sql_now := 60 * us_per_day |}.

(** [A -> X] and [X -> B] are recorded, [A -> B] is not. *)
Definition store_two_hop : Store :=
  {| accounts := [];
     transfers := [];
     account_relationships := [relationship "A" "X" 1 1; relationship "X" "B" 1 1];
     account_network_metrics := ∅ |}.

(** [X -> A] and [B -> X] are the only edges. *)
Definition store_reverse_hop : Store :=
  {| accounts := [];
     transfers := [];
     account_relationships := [relationship "X" "A" 1 1; relationship "B" "X" 1 1];
     account_network_metrics := ∅ |}.

(** [A -> Y] and [Z -> A] are the only edges. *)
Definition store_in_and_out : Store :=
  {| accounts := [];
     transfers := [];
     account_relationships := [relationship "A" "Y" 1 1; relationship "Z" "A" 1 1];
     account_network_metrics := ∅ |}.

(** One relationship of volume 3 whose sender holds 10000. *)
Definition store_small_volume : Store :=
  {| accounts :=
       [{| a_address := "A"; a_balance := 10000;
           a_identity_display := None; a_created_at := 0 |}];
     transfers := [];
     account_relationships := [relationship "A" "B" 3 1];
     account_network_metrics := ∅ |}.

(** A relationship without transfers next to one of volume 10. *)
Definition store_empty_relationship : Store :=
  {| accounts := [];
     transfers := [];
     account_relationships := [relationship "C" "D" 0 0; relationship "A" "B" 10 1];
     account_network_metrics := ∅ |}.

(** Two relationships whose volumes differ by one unit above [2^53]. *)
Definition store_large_volumes : Store :=
  {| accounts := [];
     transfers := [];
     account_relationships :=
       [relationship "C" "D" 9007199254740992 1;
        relationship "A" "B" 9007199254740993 1];
     account_network_metrics := ∅ |}.

(** A relationship first seen a year before the receiving account was
    created. *)
Definition store_early_relationship : Store :=
  {| accounts :=
       [{| a_address := "B"; a_balance := 0;
           a_identity_display := None; a_created_at := 365 * us_per_day |}];
     transfers := [];
     account_relationships :=
       [{| ar_from_address := "A"; ar_to_address := "B";
           ar_total_volume := 1; ar_transfer_count := 1;
           ar_created_at := Some 0%Z |}];
     account_network_metrics := ∅ |}.

(** A relationship with transfers, balances and stored centralities. *)
Definition store_active : Store :=
  {| accounts :=
       [{| a_address := "A"; a_balance := 5000000000000;
           a_identity_display := Some "alice"; a_created_at := 0 |};
        {| a_address := "B"; a_balance := 100;
           a_identity_display := None; a_created_at := 2 * us_per_day |}];
     transfers :=
       [{| t_from_address := "A"; t_to_address := "B";
           t_value := 1000000000000; t_timestamp := 3 * us_per_day |};
        {| t_from_address := "A"; t_to_address := "B";
           t_value := 1234; t_timestamp := 5 * us_per_day + 3 * us_per_hour |};
        {| t_from_address := "A"; t_to_address := "X";
           t_value := 77; t_timestamp := 5 * us_per_day |};
        {| t_from_address := "X"; t_to_address := "B";
           t_value := 77; t_timestamp := 5 * us_per_day + us_per_minute |}];
     account_relationships :=
       [{| ar_from_address := "A"; ar_to_address := "B";
           ar_total_volume := 1000000001234; ar_transfer_count := 2;
           ar_created_at := Some (3 * us_per_day)%Z |};
        relationship "A" "X" 77 1;
        relationship "X" "B" 77 1];
     account_network_metrics :=
       {[ "A" := {| nm_degree_centrality := 1; nm_betweenness_centrality := 0;
                    nm_closeness_centrality := 0; nm_clustering_coefficient := 1;
                    nm_pagerank := 2 # 10; nm_common_neighbors_avg := 1;
                    nm_updated_at := 0 |} ]} |}.

Definition connection_two_hop : Connection :=
  {| committed := store_two_hop; working := store_two_hop |}.

(** A graph algorithm that returns an empty [dict]. *)
Definition no_centrality (G : DiGraph) : outcome (gmap address Q) := Ok ∅.

(** Every algorithm returns; the store refuses the write of node [X]. *)
Definition runtime_write_fault : Runtime :=
  {| nx_degree_centrality := no_centrality;
     nx_betweenness_centrality := no_centrality;
     nx_closeness_centrality := no_centrality;
     nx_pagerank := no_centrality;
     nx_clustering := no_centrality;
     select_fault := None;
     execute_fault := fun node =>
       if bool_decide (node = "X") then Some "disk I/O error" else None |}.

(** Every step succeeds. *)
Definition runtime_sound : Runtime :=
  {| nx_degree_centrality := no_centrality;
     nx_betweenness_centrality := no_centrality;
     nx_closeness_centrality := no_centrality;
     nx_pagerank := no_centrality;
     nx_clustering := no_centrality;
     select_fault := None;
     execute_fault := fun _ => None |}.

(** * The rest of the scorer and its consumers *)

(** ** Interpretation bands *)

(** [RelationshipScorer._interpret_score] *)
Definition _interpret_score (score : Q) : string :=
  if Qle_bool score 20 then "Very weak relationship (minimal interaction)"
  else if Qle_bool score 40 then "Weak relationship (occasional interaction)"
  else if Qle_bool score 60 then "Moderate relationship (regular interaction)"
  else if Qle_bool score 80
  then "Strong relationship (frequent, consistent interaction)"
  else "Very strong relationship (high volume, frequent, well-connected)".


(** The line feed of the two-line category labels. *)
Definition nl : string := String (Ascii.ascii_of_nat 10) "".

(** The category a score is filed under in
    [ScoreVisualizer.create_score_distribution]. *)
Definition score_category (score : Q) : string :=
  if Qle_bool score 20 then "Very Weak" +:+ nl +:+ "(0-20)"
  else if Qle_bool score 40 then "Weak" +:+ nl +:+ "(21-40)"
  else if Qle_bool score 60 then "Moderate" +:+ nl +:+ "(41-60)"
  else if Qle_bool score 80 then "Strong" +:+ nl +:+ "(61-80)"
  else "Very Strong" +:+ nl +:+ "(81-100)".

(** [cats] of [create_score_distribution]. *)
Definition cats : list string :=
  ["Very Weak" +:+ nl +:+ "(0-20)"; "Weak" +:+ nl +:+ "(21-40)";
   "Moderate" +:+ nl +:+ "(41-60)"; "Strong" +:+ nl +:+ "(61-80)";
   "Very Strong" +:+ nl +:+ "(81-100)"].

(** [counts = [cat_counts[cat] for cat in cats]] with
    [cat_counts = Counter(categories)]: a missing key counts 0. *)
Definition category_counts (all_scores : list Q) : list nat :=
  let categories := map score_category all_scores in
  map (fun cat => count_where (String.eqb cat) categories) cats.


(** ** Export *)

(** [export_data] of [export_scores_to_json], as [json.dump] writes it. *)
Record ExportData := {
  ex_from : address;
  ex_to : address;
  ex_scores : Dict;
  ex_details : Dict;
  ex_interpretation : string;
  ex_timestamp : timestamp
}.

Definition export_data (clk : Clock) (from_addr to_addr : address)
    (score : RelationshipScore) : ExportData :=
  {| ex_from := from_addr;
     ex_to := to_addr;
     ex_scores :=
       [("total", VNum (total_score score));
        ("volume", VNum (volume_score score));
        ("frequency", VNum (frequency_score score));
        ("temporal", VNum (temporal_score score));
        ("network", VNum (network_score score));
        ("risk", VNum (risk_score score))];
     ex_details := details score;
     ex_interpretation := _interpret_score (total_score score);
     ex_timestamp := py_now clk |}.

(** The files written so far, by path.  The score is computed first;
    [open(filepath, 'w')] comes after it. *)
Definition export_scores_to_json (st : Store) (clk : Clock)
    (from_addr to_addr : address) (filepath : string)
    (files : gmap string ExportData) : gmap string ExportData * outcome unit :=
  match calculate_total_score st clk from_addr to_addr with
  | Raise e => (files, Raise e)
  | Ok score =>
    (<[filepath := export_data clk from_addr to_addr score]> files, Ok ())
  end.

(** ** Breakdowns that add up *)

Definition sum_Q (l : list Q) : Q := fold_right Qplus 0 l.

(** The breakdown [r.2] holds a number under each of [keys], and the
    score [r.1] is their sum. *)
Definition adds_up (r : Q * Dict) (keys : list string) : Prop :=
  exists parts : list Q,
    Forall2 (fun k p => dict_get k r.2 = Some (VNum p)) keys parts
    /\ r.1 == sum_Q parts.

(** ** A row of metrics *)

Definition central_metrics : NetworkMetrics :=
  {| nm_degree_centrality := 1; nm_betweenness_centrality := 0;
     nm_closeness_centrality := 0; nm_clustering_coefficient := 0;
     nm_pagerank := 1 # 10; nm_common_neighbors_avg := 0;
     nm_updated_at := 0 |}.

(** ** Two transfers around midnight *)

(** One transfer at 23:00 of day 0, one at 01:00 of day 1. *)
Definition store_midnight : Store :=
  {| accounts := [];
     transfers :=
       [{| t_from_address := "A"; t_to_address := "B"; t_value := 5;
           t_timestamp := 23 * us_per_hour |};
        {| t_from_address := "A"; t_to_address := "B"; t_value := 5;
           t_timestamp := us_per_day + us_per_hour |}];
     account_relationships := [relationship "A" "B" 10 2];
     account_network_metrics := ∅ |}.

(** ** A relationship whose transfers are not stored *)

(** The row of [(A,B)] counts three transfers; the [transfers] table has
    none of them. *)
Definition store_no_transfers : Store :=
  {| accounts := [];
     transfers := [];
     account_relationships := [relationship "A" "B" 300 3];
     account_network_metrics := ∅ |}.

(** ** The graph of the engine *)

(** The attributes [add_edge] receives for a relationship row. *)
Definition edge_of (row : AccountRelationship) : EdgeAttr :=
  {| weight := to_double (ar_total_volume row);
     edge_transfers := ar_transfer_count row |}.

(** ** Query surface *)

(** A row of [account_relationships] with the persisted score columns the
    two queries read; a score is NULL until something stores it (the
    scorer itself never does). *)
Record ScoredRelationship := {
  sr_row : AccountRelationship;
  sr_total_score : option Q;
  sr_volume_score : option Q;
  sr_risk_score : option Q
}.

(** SQLite's order on a REAL column: NULL sorts below every number. *)
Definition sql_geb (x y : option Q) : bool :=
  match x, y with
  | _, None => true
  | None, Some _ => false
  | Some a, Some b => Qle_bool b a
  end.

(** [ORDER BY key DESC] *)
Definition order_desc {A} (key : A -> option Q) : relation A :=
  fun r1 r2 => sql_geb (key r1) (key r2) = true.

#[global] Instance order_desc_dec {A} (key : A -> option Q) (r1 r2 : A) :
  Decision (order_desc key r1 r2).
Proof. unfold order_desc. apply _. Defined.

(** [column > ?]: never true of a NULL. *)
Definition sql_gtb (x : option Q) (bound : Q) : bool :=
  match x with
  | Some q => Qltb bound q
  | None => false
  end.

(** [LIMIT ?]: a negative limit is no limit. *)
Definition sql_limit {A} (limit : Z) (rows : list A) : list A :=
  if Z.ltb limit 0 then rows else take (Z.to_nat limit) rows.

(** [a.identity_display] through [LEFT JOIN accounts a]. *)
Definition identity_of (st : Store) (addr : address) : option string :=
  match find_account st addr with
  | Some acc => a_identity_display acc
  | None => None
  end.

Record TopRelationship := {
  top_row : ScoredRelationship;
  from_identity : option string;
  to_identity : option string
}.

(** [get_top_relationships], over the scored rows of the table.  SQLite
    leaves the order of rows with equal scores open; the embedding sorts
    with a merge sort. *)
Definition get_top_relationships (st : Store) (scored : list ScoredRelationship)
    (limit : Z) : list TopRelationship :=
  map (fun r =>
         {| top_row := r;
            from_identity := identity_of st (ar_from_address (sr_row r));
            to_identity := identity_of st (ar_to_address (sr_row r)) |})
      (sql_limit limit (merge_sort (order_desc sr_total_score) scored)).

(** The [WHERE] clause of [find_suspicious_relationships]. *)
Definition is_suspicious (min_volume_score min_risk_score : Q)
    (r : ScoredRelationship) : bool :=
  sql_gtb (sr_volume_score r) min_volume_score
  && sql_gtb (sr_risk_score r) min_risk_score.

(** [find_suspicious_relationships]; the selected columns are all fields
    of the scored row. *)
Definition find_suspicious_relationships (scored : list ScoredRelationship)
    (min_volume_score min_risk_score : Q) : list ScoredRelationship :=
  merge_sort (order_desc sr_risk_score)
    (List.filter (is_suspicious min_volume_score min_risk_score) scored).

Definition scored_row (a b : address) (total volume risk : option Q) : ScoredRelationship :=
  {| sr_row := relationship a b 1 1;
     sr_total_score := total; sr_volume_score := volume; sr_risk_score := risk |}.

(** Four scored rows, one of them never scored. *)
Definition scored_rows : list ScoredRelationship :=
  [scored_row "A" "B" (Some 55) (Some 80) (Some 45);
   scored_row "A" "C" None None None;
   scored_row "B" "C" (Some 91) (Some 75) (Some 31);
   scored_row "C" "A" (Some 12) (Some 90) (Some 10)].

(** ** The heatmap of relationship strengths *)

(** [l[:stop]]: a negative [stop] counts from the end. *)
Definition py_slice_to {A} (stop : Z) (l : list A) : list A :=
  if Z.ltb stop 0 then take (length l - Z.to_nat (- stop)) l
  else take (Z.to_nat stop) l.

Definition str_le (a b : string) : Prop := String.leb a b = true.

#[global] Instance str_le_dec (a b : string) : Decision (str_le a b).
Proof. unfold str_le. apply _. Defined.

(** [sorted(list(addresses))] for the set of the endpoints of the listed
    relationships. *)
Definition heat_addresses (listed : list (string * string * Q)) : list string :=
  merge_sort str_le
    (remove_dups (flat_map (fun r => [r.1.1; r.1.2]) listed)).

(** [{addr: i for i, addr in enumerate(addresses)}], counting from [i]:
    a later entry of the same key replaces an earlier one. *)
Fixpoint addr_to_idx_from (i : nat) (addresses : list string)
  (d : gmap string nat) : gmap string nat :=
  match addresses with
  | [] => d
  | addr :: rest => addr_to_idx_from (S i) rest (<[addr := i]> d)
  end.

Definition addr_to_idx (addresses : list string) : gmap string nat :=
  addr_to_idx_from 0 addresses ∅.

(** [matrix[i, j] = score]: an index outside the array raises. *)
Definition set_cell (i j : nat) (score : Q) (matrix : list (list Q))
  : outcome (list (list Q)) :=
  match matrix !! i with
  | Some row =>
    if decide (j < length row)%nat then Ok (<[i := <[j := score]> row]> matrix)
    else Raise "IndexError"
  | None => Raise "IndexError"
  end.

Definition heat_step (idx : gmap string nat) (matrix : list (list Q))
  (r : string * string * Q) : outcome (list (list Q)) :=
  match idx !! r.1.1, idx !! r.1.2 with
  | Some i, Some j => set_cell i j r.2 matrix
  | _, _ => Ok matrix
  end.

Definition heat_loop (idx : gmap string nat) (matrix : list (list Q))
  (listed : list (string * string * Q)) : outcome (list (list Q)) :=
  foldl (fun acc r =>
           match acc with
           | Raise e => Raise e
           | Ok m => heat_step idx m r
           end) (Ok matrix) listed.

(** Axis addresses and matrix of [create_relationship_heatmap]. *)
Definition heatmap_matrix (relationships : list (string * string * Q)) (top_n : Z)
  : list string * outcome (list (list Q)) :=
  let listed := py_slice_to top_n relationships in
  let addresses := heat_addresses listed in
  let n := length addresses in
  (addresses,
   heat_loop (addr_to_idx addresses) (replicate n (replicate n 0)) listed).

Definition cell (matrix : list (list Q)) (i j : nat) : option Q :=
  matrix !! i ≫= (fun row => row !! j).

(** The score of the last listed relationship from [a] to [b], 0 when
    none is listed. *)
Definition last_score (a b : string) (listed : list (string * string * Q)) : Q :=
  foldl (fun acc r =>
           if decide (r.1.1 = a /\ r.1.2 = b) then r.2 else acc) 0 listed.

Definition heat_rows : list (string * string * Q) :=
  [("B", "A", 10); ("A", "B", 30); ("B", "A", 50); ("C", "A", 70)].

(** * The security audit script *)

Record PackageInfo := {
  vulnerable_versions : list string;
  current_safe : string;
  issues : list string
}.

Definition vulnerable_packages : list (string * PackageInfo) :=
  [("express",
    {| vulnerable_versions := ["<4.17.1"]; current_safe := "4.21.2";
       issues := ["DoS via malformed Accept-Encoding header"] |});
   ("helmet",
    {| vulnerable_versions := ["<4.0.0"]; current_safe := "7.2.0";
       issues := ["Missing security headers in older versions"] |});
   ("socket.io",
    {| vulnerable_versions := ["<4.7.2"]; current_safe := "4.8.1";
       issues := ["CORS bypass, DoS vulnerabilities"] |});
   ("cors",
    {| vulnerable_versions := ["<2.8.5"]; current_safe := "2.8.5";
       issues := ["CORS misconfiguration"] |})].

(** [package.json], as far as the audit reads it. *)
Record PackageJson := {
  dependencies : option (gmap string string)
}.

Record Vulnerability := {
  v_package : string;
  v_current_version : string;
  v_safe_version : string;
  v_issues : list string;
  v_severity : string
}.

(** [s.replace(c, '')] for a one-character string [c]. *)
Fixpoint str_remove (c : string) (s : string) : string :=
  match s with
  | EmptyString => EmptyString
  | String x rest =>
    if String.eqb (String x EmptyString) c then str_remove c rest
    else String x (str_remove c rest)
  end.

Definition report_package (deps : gmap string string) (entry : string * PackageInfo)
  : option Vulnerability :=
  match deps !! entry.1 with
  | Some version =>
    Some {| v_package := entry.1;
            v_current_version := str_remove "~" (str_remove "^" version);
            v_safe_version := current_safe entry.2;
            v_issues := issues entry.2;
            v_severity := "medium" |}
  | None => None
  end.

(** [package_json] is [None] when the file is missing. *)
Definition check_dependency_versions (package_json : option PackageJson)
  : list Vulnerability :=
  match package_json with
  | None => []
  | Some pj =>
    let deps := default ∅ (dependencies pj) in
    omap (report_package deps) vulnerable_packages
  end.

(** The summary of [generate_report]. *)
Definition overall_status (total_issues : nat) : string :=
  if Nat.eqb total_issues 0 then "GOOD"
  else if Nat.leb total_issues 3 then "MODERATE"
  else "NEEDS ATTENTION".

Definition security_summary {S E} (vulnerabilities : list Vulnerability)
  (secrets : list S) (env_issues : list E) : string :=
  overall_status (length vulnerabilities + length secrets + length env_issues).

Definition package_json_current : PackageJson :=
  {| dependencies :=
       Some (list_to_map [("express", "^4.21.2"); ("helmet", "^7.2.0");
                          ("socket.io", "~4.8.1"); ("cors", "2.8.5");
                          ("zod", "^3.22.4")]) |}.

(** * Properties *)

(** ** Arithmetic of the embedding *)

Lemma Qltb_lt (x y : Q) : Qltb x y = true <-> x < y.
Proof.
  unfold Qltb. rewrite Qlt_alt. destruct (Qcompare x y); split; congruence.
Qed.

Lemma Qltb_irrefl (x : Q) : Qltb x x = false.
Proof.
  destruct (Qltb x x) eqn:E; [|done].
  apply Qltb_lt in E. exfalso. revert E. apply Qlt_irrefl.
Qed.

Lemma natQ_nonneg (n : nat) : 0 <= natQ n.
Proof. unfold natQ, Qle; simpl; lia. Qed.

Lemma NQ_nonneg (n : N) : 0 <= NQ n.
Proof. unfold NQ, Qle; simpl; lia. Qed.

Lemma natQ_le (n m : nat) : (n <= m)%nat -> natQ n <= natQ m.
Proof. intros Hnm. unfold natQ. rewrite <- Zle_Qle. lia. Qed.

Lemma natQ_lt (n m : nat) : (n < m)%nat -> natQ n < natQ m.
Proof. intros Hnm. unfold natQ. rewrite <- Zlt_Qlt. lia. Qed.

Lemma Qdiv_nonneg (a b : Q) : 0 <= a -> 0 <= b -> 0 <= a / b.
Proof.
  intros Ha Hb. unfold Qdiv. apply Qmult_le_0_compat; [done|].
  by apply Qinv_le_0_compat.
Qed.

Lemma Qmin_nonneg (a b : Q) : 0 <= a -> 0 <= b -> 0 <= Qmin a b.
Proof. intros Ha Hb. by apply Q.min_glb. Qed.

Lemma Qadd_nonneg (a b : Q) : 0 <= a -> 0 <= b -> 0 <= a + b.
Proof. intros; lra. Qed.

Create HintDb qpos discriminated.
#[local] Hint Resolve natQ_nonneg NQ_nonneg Qdiv_nonneg Qmin_nonneg Qadd_nonneg
  Qmult_le_0_compat : qpos.
#[local] Hint Extern 4 (0 <= _)%Q => lra : qpos.

(** Rounding moves a value by at most half a unit. *)
Lemma round_half_even_near (q : Q) :
  inject_Z (round_half_even q) - (1 # 2) <= q <= inject_Z (round_half_even q) + (1 # 2).
Proof.
  unfold round_half_even.
  pose proof (Qfloor_le q) as Hlo. pose proof (Qlt_floor q) as Hhi.
  rewrite inject_Z_plus in Hhi. change (inject_Z 1) with 1 in Hhi.
  destruct (Qcompare (q - inject_Z (Qfloor q)) (1 # 2)) eqn:E.
  - apply Qeq_alt in E.
    destruct (Z.even (Qfloor q)); rewrite ?inject_Z_plus;
      change (inject_Z 1) with 1; lra.
  - apply Qlt_alt in E. lra.
  - apply Qgt_alt in E. rewrite inject_Z_plus. change (inject_Z 1) with 1. lra.
Qed.

Lemma round_half_even_comp (q q' : Q) : q == q' -> round_half_even q = round_half_even q'.
Proof.
  intros Heq. unfold round_half_even.
  rewrite (Qfloor_comp _ _ Heq).
  assert (Hc : Qcompare (q - inject_Z (Qfloor q')) (1 # 2)
               = Qcompare (q' - inject_Z (Qfloor q')) (1 # 2)).
  { apply Qcompare_comp; [|reflexivity]. by rewrite Heq. }
  by rewrite Hc.
Qed.

Lemma ZQ_nonneg (z : Z) : (0 <= z)%Z -> 0 <= ZQ z.
Proof. intros Hz. unfold ZQ. rewrite Zle_Qle in Hz. exact Hz. Qed.

#[local] Hint Resolve ZQ_nonneg : qpos.

Lemma round_half_even_mono (q q' : Q) :
  q <= q' -> (round_half_even q <= round_half_even q')%Z.
Proof.
  intros Hle.
  destruct (Z_le_gt_dec (round_half_even q) (round_half_even q')) as [|Hgt];
    [done|exfalso].
  pose proof (round_half_even_near q) as [Hq1 Hq2].
  pose proof (round_half_even_near q') as [Hq1' Hq2'].
  assert (inject_Z (round_half_even q' + 1) <= inject_Z (round_half_even q)) as Hz
    by (rewrite <- Zle_Qle; lia).
  rewrite inject_Z_plus in Hz. change (inject_Z 1) with 1 in Hz.
  assert (q == q') as Heq by (apply Qle_antisym; lra).
  rewrite (round_half_even_comp _ _ Heq) in Hgt. lia.
Qed.

(** An integer is its own rounding. *)
Lemma round_half_even_Z (z : Z) : round_half_even (inject_Z z) = z.
Proof.
  unfold round_half_even. rewrite Qfloor_Z.
  assert (Qcompare (inject_Z z - inject_Z z) (1 # 2) = Lt) as ->; [|done].
  rewrite <- Qlt_alt.
  assert (inject_Z z - inject_Z z == 0) as -> by ring. reflexivity.
Qed.

(** ** Doubles *)

Lemma pow2_pos (e : Z) : 0 < pow2 e.
Proof. apply Qpower_0_lt. reflexivity. Qed.

Lemma pow2_add (a b : Z) : pow2 (a + b) == pow2 a * pow2 b.
Proof. apply Qpower_plus. discriminate. Qed.

Lemma pow2_succ (a : Z) : pow2 (a + 1) == 2 * pow2 a.
Proof. rewrite pow2_add. change (pow2 1) with 2. ring. Qed.

Lemma pow2_le (a b : Z) : (a <= b)%Z -> pow2 a <= pow2 b.
Proof. intros Hab. apply Qpower_le_compat_l; [done|discriminate]. Qed.

Lemma pow2_inject (a : Z) : (0 <= a)%Z -> inject_Z (2 ^ a) == pow2 a.
Proof. intros Ha. by rewrite Zpower_Qpower. Qed.

Lemma Z_log2_bounds (n : Z) :
  (0 < n)%Z -> pow2 (Z.log2 n) <= inject_Z n /\ inject_Z n < pow2 (Z.log2 n + 1).
Proof.
  intros Hn. destruct (Z.log2_spec n Hn) as [Hlo Hhi].
  pose proof (Z.log2_nonneg n) as Hnn.
  rewrite <- !pow2_inject by lia. rewrite <- Zle_Qle, <- Zlt_Qlt.
  split; [done|]. by rewrite Z.add_1_r.
Qed.

Lemma binary_exponent_spec (q : Q) :
  0 < q -> pow2 (binary_exponent q) <= q /\ q < pow2 (binary_exponent q + 1).
Proof.
  intros Hq. unfold binary_exponent.
  set (n := Qnum q). set (d := Zpos (Qden q)).
  set (k := (Z.log2 n - Z.log2 d)%Z).
  assert (0 < n)%Z as Hn.
  { subst n. destruct q as [qn qd]. unfold Qlt in Hq. cbn in *. lia. }
  assert (0 < d)%Z as Hd by (subst d; lia).
  destruct (Z_log2_bounds n Hn) as [Hn1 Hn2].
  destruct (Z_log2_bounds d Hd) as [Hd1 Hd2].
  assert (q * inject_Z d == inject_Z n) as Hqd.
  { subst n d. destruct q as [qn qd]. unfold Qeq, Qmult, inject_Z. cbn. lia. }
  pose proof (pow2_pos (Z.log2 d)) as Hpd.
  pose proof (pow2_pos k) as Hpk.
  assert (pow2 (Z.log2 n) == pow2 k * pow2 (Z.log2 d)) as Hk.
  { rewrite <- pow2_add. subst k. by replace (Z.log2 n - Z.log2 d + Z.log2 d)%Z
      with (Z.log2 n) by lia. }
  rewrite pow2_succ in Hn2, Hd2.
  assert (0 < inject_Z d) as HdQ.
  { change 0 with (inject_Z 0). rewrite <- Zlt_Qlt. done. }
  (* q lies strictly between 2^(k-1) and 2^(k+1) *)
  assert (q < 2 * pow2 k) as Hup.
  { apply Qnot_le_lt. intros Hge.
    assert (2 * pow2 k * pow2 (Z.log2 d) <= q * inject_Z d) by nra. nra. }
  assert (pow2 k < 2 * q) as Hdown.
  { apply Qnot_le_lt. intros Hge.
    assert (2 * q * inject_Z d <= pow2 k * inject_Z d) by nra. nra. }
  destruct (Qle_bool (pow2 k) q) eqn:E.
  - apply Qle_bool_iff in E. rewrite pow2_succ. split; [done|lra].
  - assert (q < pow2 k) as Hlt.
    { apply Qnot_le_lt. intros Hle. apply Qle_bool_iff in Hle. congruence. }
    replace (k - 1 + 1)%Z with k by lia.
    assert (pow2 k == 2 * pow2 (k - 1)) as Hk1.
    { rewrite <- pow2_succ. by replace (k - 1 + 1)%Z with k by lia. }
    split; [lra|done].
Qed.

(** The scaled value lies in the binade of 53-bit integers. *)
Lemma fl_pos_scaled (q : Q) :
  0 < q ->
  let e := (binary_exponent q - 52)%Z in
  pow2 52 * pow2 e <= q /\ q < pow2 53 * pow2 e.
Proof.
  intros Hq e. destruct (binary_exponent_spec q Hq) as [Hlo Hhi].
  rewrite <- !pow2_add. subst e.
  replace (52 + (binary_exponent q - 52))%Z with (binary_exponent q) by lia.
  replace (53 + (binary_exponent q - 52))%Z with (binary_exponent q + 1)%Z by lia.
  done.
Qed.

Lemma fl_pos_mantissa (q : Q) :
  0 < q ->
  let e := (binary_exponent q - 52)%Z in
  (2 ^ 52 <= round_half_even (q / pow2 e) <= 2 ^ 53)%Z.
Proof.
  intros Hq e. destruct (fl_pos_scaled q Hq) as [Hlo Hhi]. fold e in Hlo, Hhi.
  pose proof (pow2_pos e) as He.
  assert (pow2 52 <= q / pow2 e) as Hlo'.
  { apply Qle_shift_div_l; [done|lra]. }
  assert (q / pow2 e <= pow2 53) as Hhi'.
  { apply Qle_shift_div_r; [done|lra]. }
  assert (inject_Z (2 ^ 52) <= q / pow2 e) as Hlo''
    by (by rewrite (pow2_inject 52)).
  assert (q / pow2 e <= inject_Z (2 ^ 53)) as Hhi''
    by (by rewrite (pow2_inject 53)).
  clear Hlo' Hhi'. rename Hlo'' into Hlo'. rename Hhi'' into Hhi'.
  apply round_half_even_mono in Hlo', Hhi'.
  rewrite round_half_even_Z in Hlo', Hhi'. done.
Qed.

Lemma fl_pos_mono (x y : Q) : 0 < x -> x <= y -> fl_pos x <= fl_pos y.
Proof.
  intros Hx Hxy. assert (0 < y) as Hy by lra.
  unfold fl_pos.
  set (ex := (binary_exponent x - 52)%Z). set (ey := (binary_exponent y - 52)%Z).
  destruct (fl_pos_scaled x Hx) as [Hx1 Hx2]. fold ex in Hx1, Hx2.
  destruct (fl_pos_scaled y Hy) as [Hy1 Hy2]. fold ey in Hy1, Hy2.
  destruct (fl_pos_mantissa x Hx) as [_ Hmx]. fold ex in Hmx.
  destruct (fl_pos_mantissa y Hy) as [Hmy _]. fold ey in Hmy.
  pose proof (pow2_pos ex) as Hpx. pose proof (pow2_pos ey) as Hpy.
  assert (pow2 53 == 2 * pow2 52) as H53 by reflexivity.
  assert (0 < pow2 52) as H52 by apply pow2_pos.
  destruct (Z.lt_trichotomy ex ey) as [Hlt|[Heq|Hgt]].
  - (* a lower binade: at most 2^53 units of it *)
    assert (pow2 (ex + 1) <= pow2 ey) as Hstep by (apply pow2_le; lia).
    rewrite pow2_succ in Hstep.
    rewrite Zle_Qle in Hmx, Hmy. rewrite !pow2_inject in Hmx, Hmy by lia.
    set (mx := inject_Z (round_half_even (x / pow2 ex))) in *.
    set (my := inject_Z (round_half_even (y / pow2 ey))) in *.
    assert (mx * pow2 ex <= pow2 53 * pow2 ex) by nra.
    assert (pow2 52 * pow2 ey <= my * pow2 ey) by nra.
    nra.
  - rewrite Heq. apply Qmult_le_compat_r; [|lra].
    rewrite <- Zle_Qle. apply round_half_even_mono.
    unfold Qdiv. apply Qmult_le_compat_r; [done|].
    apply Qinv_le_0_compat. lra.
  - exfalso.
    assert (pow2 (ey + 1) <= pow2 ex) as Hstep by (apply pow2_le; lia).
    rewrite pow2_succ in Hstep. nra.
Qed.

Lemma fl_pos_nonneg (q : Q) : 0 < q -> 0 <= fl_pos q.
Proof.
  intros Hq. unfold fl_pos. destruct (fl_pos_mantissa q Hq) as [Hm _].
  apply Qmult_le_0_compat; [|apply Qlt_le_weak, pow2_pos].
  change 0 with (inject_Z 0). rewrite <- Zle_Qle. lia.
Qed.

Lemma fl_nonneg (q : Q) : 0 <= q -> 0 <= fl q.
Proof.
  intros Hq. unfold fl. destruct (Qcompare q 0) eqn:E.
  - lra.
  - apply Qlt_alt in E. lra.
  - apply Qgt_alt in E. by apply fl_pos_nonneg.
Qed.

(** Rounding to a double keeps the order of non-negative values. *)
Lemma fl_mono (x y : Q) : 0 <= x -> x <= y -> fl x <= fl y.
Proof.
  intros Hx Hxy. unfold fl at 1. destruct (Qcompare x 0) eqn:Ex.
  - apply fl_nonneg. lra.
  - apply Qlt_alt in Ex. lra.
  - apply Qgt_alt in Ex. unfold fl. destruct (Qcompare y 0) eqn:Ey.
    + apply Qeq_alt in Ey. lra.
    + apply Qlt_alt in Ey. lra.
    + by apply fl_pos_mono.
Qed.

Lemma NQ_le (n m : N) : (n <= m)%N -> NQ n <= NQ m.
Proof. intros Hnm. unfold NQ. rewrite <- Zle_Qle. lia. Qed.

Lemma to_double_mono (n m : N) : (n <= m)%N -> to_double n <= to_double m.
Proof. intros Hnm. apply fl_mono; [apply NQ_nonneg|by apply NQ_le]. Qed.

Lemma to_double_nonneg (n : N) : 0 <= to_double n.
Proof. apply fl_nonneg, NQ_nonneg. Qed.

(** An integer below [2^53] is a double. *)
Lemma to_double_exact (n : N) : (n < 2 ^ 53)%N -> to_double n == NQ n.
Proof.
  intros Hn. unfold to_double, fl.
  destruct (Qcompare (NQ n) 0) eqn:E.
  - apply Qeq_alt in E. by rewrite E.
  - apply Qlt_alt in E. pose proof (NQ_nonneg n). lra.
  - apply Qgt_alt in E. unfold fl_pos.
    set (e := (binary_exponent (NQ n) - 52)%Z).
    destruct (binary_exponent_spec (NQ n) E) as [Hlo _].
    assert (NQ n < pow2 53) as Hhi.
    { rewrite <- pow2_inject by lia. unfold NQ. rewrite <- Zlt_Qlt.
      change (2 ^ 53)%Z with (Z.of_N (2 ^ 53)). lia. }
    assert (e <= 0)%Z as He.
    { assert (binary_exponent (NQ n) < 53)%Z; [|lia].
      apply (Qpower_lt_compat_l_inv 2); [|reflexivity].
      eapply Qle_lt_trans; [exact Hlo|exact Hhi]. }
    assert (pow2 e * inject_Z (2 ^ (- e)) == 1) as Hinv.
    { rewrite pow2_inject by lia. rewrite <- pow2_add.
      by replace (e + - e)%Z with 0%Z by lia. }
    pose proof (pow2_pos e) as Hpe.
    assert (NQ n / pow2 e == inject_Z (Z.of_N n * 2 ^ (- e))) as Hscaled.
    { rewrite inject_Z_mult. fold (NQ n).
      apply (Qmult_inj_r _ _ (pow2 e)); [lra|].
      unfold Qdiv. rewrite <- Qmult_assoc, (Qmult_comm (/ _)), Qmult_inv_r by lra.
      rewrite <- Qmult_assoc, (Qmult_comm (inject_Z _) (pow2 e)), Hinv. ring. }
    rewrite (round_half_even_comp _ _ Hscaled), round_half_even_Z.
    rewrite inject_Z_mult. fold (NQ n). rewrite <- Qmult_assoc.
    rewrite (Qmult_comm (inject_Z _)), Hinv. ring.
Qed.

#[local] Hint Resolve to_double_nonneg fl_nonneg : qpos.

(** ** Ranges of the component scores *)

Lemma volume_percentile_nonneg (st : Store) (v : Q) : 0 <= volume_percentile st v.
Proof. unfold volume_percentile. auto with qpos. Qed.

Lemma avg_size_percentile_nonneg (st : Store) (v : Q) : 0 <= avg_size_percentile st v.
Proof. unfold avg_size_percentile. auto with qpos. Qed.

Lemma count_percentile_nonneg (st : Store) (n : N) : 0 <= count_percentile st n.
Proof. unfold count_percentile. auto with qpos. Qed.

#[local] Hint Resolve volume_percentile_nonneg avg_size_percentile_nonneg
  count_percentile_nonneg : qpos.

Lemma calculate_volume_score_range (st : Store) (a b : address) :
  0 <= (calculate_volume_score st a b).1 <= 100.
Proof.
  unfold calculate_volume_score.
  destruct (find_relationship st a b) as [row|]; cbn [fst]; [|lra].
  split; [|apply Q.le_min_l].
  apply Qmin_nonneg; [lra|].
  repeat apply Qadd_nonneg; auto with qpos.
  destruct (Qltb 0 _); [|lra].
  destruct (find_account st a); auto 7 with qpos.
Qed.

Lemma calculate_frequency_score_range (st : Store) (a b : address) :
  0 <= (calculate_frequency_score st a b).1 <= 100.
Proof.
  unfold calculate_frequency_score.
  destruct (transfer_stats st a b) as [row|]; cbn [fst]; [|lra].
  destruct (N.eqb (ts_transfer_count row) 0); cbn [fst]; [lra|].
  split; [|apply Q.le_min_l].
  assert (0 <= ZQ (Z.max (timedelta_days (ts_last_transfer row)
                            (ts_first_transfer row) + 1) 1)) by (apply ZQ_nonneg; lia).
  auto 9 with qpos.
Qed.

Lemma min_timestamp_le (t0 : timestamp) (l : list timestamp) :
  (min_timestamp t0 l <= t0)%Z.
Proof. induction l as [|t l IH]; simpl; lia. Qed.

Lemma max_timestamp_ge (t0 : timestamp) (l : list timestamp) :
  (t0 <= max_timestamp t0 l)%Z.
Proof. induction l as [|t l IH]; simpl; lia. Qed.

Lemma transfer_stats_order (st : Store) (a b : address) (row : TransferStats) :
  transfer_stats st a b = Some row ->
  (ts_first_transfer row <= ts_last_transfer row)%Z.
Proof.
  unfold transfer_stats. intros Hrow.
  destruct (find_relationship st a b) as [ar|]; [|done].
  destruct (pair_transfers st a b) as [|t ts]; [done|].
  injection Hrow as <-. cbn.
  pose proof (min_timestamp_le (t_timestamp t) (map t_timestamp ts)).
  pose proof (max_timestamp_ge (t_timestamp t) (map t_timestamp ts)).
  lia.
Qed.

Lemma timedelta_days_nonneg (t1 t2 : timestamp) :
  (t2 <= t1)%Z -> (0 <= timedelta_days t1 t2)%Z.
Proof.
  intros Hle. unfold timedelta_days. apply Z.div_pos; [lia|].
  by vm_compute.
Qed.

Lemma recency_component_range (d : Z) : 0 <= recency_component d <= 40.
Proof.
  unfold recency_component.
  repeat match goal with |- context [Z.leb ?x ?y] => destruct (Z.leb x y) end;
    split; lra.
Qed.

(** The three parts of the temporal score, with their caps. *)
Lemma calculate_temporal_score_range (st : Store) (clk : Clock) (a b : address) :
  0 <= (calculate_temporal_score st clk a b).1 <= 100.
Proof.
  unfold calculate_temporal_score.
  destruct (transfer_stats st a b) as [row|] eqn:Hrow; cbn [fst]; [|lra].
  pose proof (transfer_stats_order _ _ _ _ Hrow) as Hord.
  pose proof (timedelta_days_nonneg _ _ Hord) as Hdays.
  pose proof (recency_component_range
                (timedelta_days (py_now clk) (ts_last_transfer row))) as [Hr0 Hr40].
  set (rec := recency_component _) in *.
  set (dur := Qmin 30 _).
  set (act := if N.ltb 0 (ts_transfer_count row) then _ else _).
  assert (0 <= dur <= 30) as [Hd0 Hd30].
  { subst dur. split; [|apply Q.le_min_l].
    apply Qmin_nonneg; [lra|].
    apply Qmult_le_0_compat; [|lra].
    apply Qdiv_nonneg; [|lra]. apply ZQ_nonneg. lia. }
  assert (0 <= act <= 30) as [Ha0 Ha30].
  { subst act. destruct (N.ltb 0 (ts_transfer_count row)); [|lra].
    split; [|apply Q.le_min_l]. auto 8 with qpos. }
  lra.
Qed.

Lemma calculate_risk_score_range (st : Store) (a b : address) :
  0 <= (calculate_risk_score st a b).1 <= 100.
Proof.
  unfold calculate_risk_score.
  destruct (find_relationship st a b) as [rel_data|]; cbn [fst]; [|lra].
  split; [|apply Q.le_min_l].
  auto 9 with qpos.
Qed.

(** ** The statement SQLite refuses *)

(** The metrics statement has a parameter in the place of a column name:
    it is never prepared. *)
Lemma sqlite_prepare_metrics_statement :
  sqlite_prepare metrics_statement = Raise "sqlite3.OperationalError".
Proof. reflexivity. Qed.

(** The network scorer counts the common connections and raises on its
    second statement, whatever the store and the pair. *)
Lemma calculate_network_score_raises (st : Store) (a b : address) :
  calculate_network_score st a b = Raise "sqlite3.OperationalError".
Proof.
  unfold calculate_network_score, select_metrics.
  by rewrite sqlite_prepare_metrics_statement.
Qed.

(** The aggregator calls the network scorer fourth; its exception ends
    the call before the risk scorer, the weighted sum and the penalty. *)
Lemma calculate_total_score_raises (st : Store) (clk : Clock) (a b : address) :
  calculate_total_score st clk a b = Raise "sqlite3.OperationalError".
Proof.
  unfold calculate_total_score. by rewrite calculate_network_score_raises.
Qed.

(** ** A pair without a relationship row *)

Lemma missing_row_four_scorers (st : Store) (clk : Clock) (a b : address) :
  find_relationship st a b = None ->
  calculate_volume_score st a b = (0, [])
  /\ calculate_frequency_score st a b = (0, [])
  /\ calculate_temporal_score st clk a b = (0, [])
  /\ calculate_risk_score st a b = (0, []).
Proof.
  intros Hnone. repeat split.
  - unfold calculate_volume_score. by rewrite Hnone.
  - unfold calculate_frequency_score, transfer_stats. by rewrite Hnone.
  - unfold calculate_temporal_score, transfer_stats. by rewrite Hnone.
  - unfold calculate_risk_score. by rewrite Hnone.
Qed.

(** C1: for a pair with no relationship row the volume, frequency,
    temporal and risk scorers return 0 with an empty breakdown, as
    specified.  The network scorer returns no score and no breakdown: it
    raises [sqlite3.OperationalError] on its metrics statement, and the
    aggregator, which calls it, raises with it instead of returning a
    total of 0.  The scenario of the specification does not hold. *)
Theorem missing_row_scores (st : Store) (clk : Clock) (a b : address) :
  find_relationship st a b = None ->
  calculate_volume_score st a b = (0, [])
  /\ calculate_frequency_score st a b = (0, [])
  /\ calculate_temporal_score st clk a b = (0, [])
  /\ calculate_risk_score st a b = (0, [])
  /\ calculate_network_score st a b = Raise "sqlite3.OperationalError"
  /\ calculate_total_score st clk a b = Raise "sqlite3.OperationalError"
  /\ ~ missing_row_all_zero st clk a b.
Proof.
  intros Hnone.
  destruct (missing_row_four_scorers st clk a b Hnone) as (Hv & Hf & Ht & Hk).
  do 4 (split; [done|]).
  split; [apply calculate_network_score_raises|].
  split; [apply calculate_total_score_raises|].
  intros Hclaim. destruct (Hclaim Hnone) as (_ & _ & _ & (r & Hr & _) & _).
  rewrite calculate_network_score_raises in Hr. discriminate Hr.
Qed.

(** The pair (A,B) of [store_two_hop]: [A -> X] and [X -> B] are stored,
    [A -> B] is not. *)
Lemma missing_row_scores_witness :
  find_relationship store_two_hop "A" "B" = None
  /\ calculate_network_score store_two_hop "A" "B" = Raise "sqlite3.OperationalError"
  /\ calculate_total_score store_two_hop epoch "A" "B"
     = Raise "sqlite3.OperationalError".
Proof.
  split; [reflexivity|].
  destruct (missing_row_scores store_two_hop epoch "A" "B" eq_refl)
    as (_ & _ & _ & _ & Hn & Ht & _).
  by split.
Defined.

(** ** Total score against base score *)

(** C2: the aggregator produces no [total_score] and no [base_score] to
    compare: for every store and pair its call raises
    [sqlite3.OperationalError] in the network scorer (l.391), before the
    weighted sum of l.402 and the rounding of l.411 are reached. *)
Theorem total_score_not_produced (st : Store) (clk : Clock) (a b : address) :
  calculate_total_score st clk a b = Raise "sqlite3.OperationalError"
  /\ ~ total_le_base st clk a b.
Proof.
  split; [apply calculate_total_score_raises|].
  intros (r & Hr & _). rewrite calculate_total_score_raises in Hr. discriminate Hr.
Qed.

(** The relationship of [store_small_volume], with its row, its sender's
    balance and no stored metrics. *)
Example small_volume_total :
  is_Some (find_relationship store_small_volume "A" "B")
  /\ calculate_total_score store_small_volume epoch "A" "B"
     = Raise "sqlite3.OperationalError".
Proof. split; [by eexists|reflexivity]. Qed.

(** ** Bounds of every score *)

(** The temporal scorer adds three parts without a final cap. *)
Lemma calculate_temporal_score_parts (st : Store) (clk : Clock) (a b : address) :
  calculate_temporal_score st clk a b = (0, [])
  \/ exists recency duration activity : Q,
       (calculate_temporal_score st clk a b).1 = recency + duration + activity
       /\ dict_get "recency_component" (calculate_temporal_score st clk a b).2
          = Some (VNum recency)
       /\ dict_get "duration_component" (calculate_temporal_score st clk a b).2
          = Some (VNum duration)
       /\ dict_get "activity_component" (calculate_temporal_score st clk a b).2
          = Some (VNum activity)
       /\ recency <= 40 /\ duration <= 30 /\ activity <= 30.
Proof.
  unfold calculate_temporal_score.
  destruct (transfer_stats st a b) as [row|]; [right|by left].
  eexists _, _, _. cbn [fst snd].
  split; [reflexivity|].
  split; [reflexivity|]. split; [reflexivity|]. split; [reflexivity|].
  split; [apply recency_component_range|].
  split; [apply Q.le_min_l|].
  destruct (N.ltb 0 (ts_transfer_count row)); [apply Q.le_min_l|lra].
Qed.

(** C4: the volume, frequency and temporal sub-scores and the risk score
    lie in [0,100] for every store and pair, the temporal score, returned
    without a final cap, being a sum of three parts capped at 40, 30 and
    30.  The network scorer returns no sub-score and the aggregator no
    total score: both raise [sqlite3.OperationalError], so the invariant
    of the specification does not hold of them. *)
Theorem scores_in_range (st : Store) (clk : Clock) (a b : address) :
  in_range (calculate_volume_score st a b).1
  /\ in_range (calculate_frequency_score st a b).1
  /\ in_range (calculate_temporal_score st clk a b).1
  /\ in_range (calculate_risk_score st a b).1
  /\ (calculate_temporal_score st clk a b = (0, [])
      \/ exists recency duration activity : Q,
           (calculate_temporal_score st clk a b).1 = recency + duration + activity
           /\ dict_get "recency_component" (calculate_temporal_score st clk a b).2
              = Some (VNum recency)
           /\ dict_get "duration_component" (calculate_temporal_score st clk a b).2
              = Some (VNum duration)
           /\ dict_get "activity_component" (calculate_temporal_score st clk a b).2
              = Some (VNum activity)
           /\ recency <= 40 /\ duration <= 30 /\ activity <= 30)
  /\ calculate_network_score st a b = Raise "sqlite3.OperationalError"
  /\ calculate_total_score st clk a b = Raise "sqlite3.OperationalError"
  /\ ~ every_score_in_range st clk a b.
Proof.
  unfold in_range.
  split; [apply calculate_volume_score_range|].
  split; [apply calculate_frequency_score_range|].
  split; [apply calculate_temporal_score_range|].
  split; [apply calculate_risk_score_range|].
  split; [apply calculate_temporal_score_parts|].
  split; [apply calculate_network_score_raises|].
  split; [apply calculate_total_score_raises|].
  intros (_ & _ & _ & (r & Hr & _) & _).
  rewrite calculate_network_score_raises in Hr. discriminate Hr.
Qed.

(** The four scorers that return, on the relationship of [store_active]
    on day 6. *)
Example store_active_scores :
  Qred (calculate_volume_score store_active "A" "B").1 = 5000000001851 # 75000000000
  /\ Qred (calculate_frequency_score store_active "A" "B").1 = 146 # 3
  /\ Qred (calculate_temporal_score store_active clock_day_6 "A" "B").1 = 5128 # 73
  /\ Qred (calculate_risk_score store_active "A" "B").1 = 100
  /\ calculate_network_score store_active "A" "B" = Raise "sqlite3.OperationalError".
Proof. vm_compute. repeat split; reflexivity. Qed.

(** ** The risk multiplier *)

(** C5: the aggregator computes no risk multiplier.  The risk scorer, called
    on its own, returns a risk score in [0,100] for every pair; the
    aggregator raises [sqlite3.OperationalError] in the network scorer,
    which it calls before the risk scorer, and never reaches
    [risk_multiplier = 1 - (risk_score / 200)] (l.410). *)
Theorem risk_multiplier_not_computed (st : Store) (clk : Clock) (a b : address) :
  in_range (calculate_risk_score st a b).1
  /\ calculate_total_score st clk a b = Raise "sqlite3.OperationalError"
  /\ ~ computes_risk_multiplier st clk a b.
Proof.
  split; [apply calculate_risk_score_range|].
  split; [apply calculate_total_score_raises|].
  intros (r & Hr & _). rewrite calculate_total_score_raises in Hr. discriminate Hr.
Qed.

(** The relationship of [store_active] has risk score 100; no multiplier
    is computed for it. *)
Example store_active_risk :
  (calculate_risk_score store_active "A" "B").1 == 100
  /\ calculate_total_score store_active clock_day_6 "A" "B"
     = Raise "sqlite3.OperationalError".
Proof. split; vm_compute; reflexivity. Qed.

(** ** Common connections *)

Lemma has_edge_true (st : Store) (u v : address) :
  has_edge st u v = true <->
  exists r, r ∈ account_relationships st
            /\ ar_from_address r = u /\ ar_to_address r = v.
Proof.
  unfold has_edge. rewrite existsb_exists. unfold is_pair.
  split; intros (r & Hin & Hr); exists r.
  - apply andb_prop in Hr as [H1 H2].
    apply bool_decide_eq_true in H1, H2. by rewrite list_elem_of_In.
  - destruct Hr as [-> ->]. rewrite <- list_elem_of_In.
    split; [done|]. by rewrite !bool_decide_eq_true_2.
Qed.

Lemma elem_of_endpoints_from (st : Store) (r : AccountRelationship) :
  r ∈ account_relationships st -> ar_from_address r ∈ endpoints st.
Proof.
  intros Hin. unfold endpoints. rewrite elem_of_list_to_set, list_elem_of_bind.
  exists r. split; [|done]. set_solver.
Qed.

Lemma elem_of_endpoints_to (st : Store) (r : AccountRelationship) :
  r ∈ account_relationships st -> ar_to_address r ∈ endpoints st.
Proof.
  intros Hin. unfold endpoints. rewrite elem_of_list_to_set, list_elem_of_bind.
  exists r. split; [|done]. set_solver.
Qed.

Lemma elem_of_common_connection_values (st : Store) (a b x : address) :
  x ∈ common_connection_values st a b <->
  exists r1 r2,
    r1 ∈ account_relationships st /\ r2 ∈ account_relationships st
    /\ common_connection_where a b r1 r2 = true
    /\ common_connection_case r1 r2 = Some x.
Proof.
  unfold common_connection_values. rewrite list_elem_of_bind. split.
  - intros (r1 & Hx & Hr1). apply list_elem_of_bind in Hx as (r2 & Hx & Hr2).
    exists r1, r2. destruct (common_connection_where a b r1 r2); [|by inversion Hx].
    destruct (common_connection_case r1 r2) as [y|]; [|by inversion Hx].
    apply list_elem_of_singleton in Hx as ->. done.
  - intros (r1 & r2 & Hr1 & Hr2 & Hw & Hc). exists r1. split; [|done].
    apply list_elem_of_bind. exists r2. split; [|done].
    rewrite Hw, Hc. by apply list_elem_of_singleton.
Qed.

Lemma common_connections_size (st : Store) (a b : address) :
  common_connections st a b
  = size (list_to_set (common_connection_values st a b) : gset address).
Proof.
  unfold common_connections.
  rewrite <- (size_list_to_set (C:=gset address) (remove_dups _))
    by apply NoDup_remove_dups.
  f_equal. apply set_eq. intros x.
  by rewrite !elem_of_list_to_set, elem_of_remove_dups.
Qed.

(** For two different accounts A and B the second [WHEN] of the query
    never fires: [r1.from_address] and [r2.to_address] are both fixed by
    the parameters, so [r1.from_address = r2.to_address] only says A = B.
    What is counted are the accounts X with an edge [A -> X] and an edge
    [X -> B]. *)
Lemma common_connections_two_hop (st : Store) (a b : address) :
  a <> b ->
  common_connections st a b = size (two_hop_intermediaries st a b).
Proof.
  intros Hab. rewrite common_connections_size. f_equal.
  apply set_eq. intros x.
  rewrite elem_of_list_to_set, elem_of_common_connection_values.
  unfold two_hop_intermediaries. rewrite elem_of_filter.
  rewrite andb_true_iff, !has_edge_true.
  unfold common_connection_where, common_connection_case.
  split.
  - intros (r1 & r2 & Hr1 & Hr2 & Hw & Hc).
    apply andb_prop in Hw as [Hw Hor]. apply andb_prop in Hw as [Hf Ht].
    apply bool_decide_eq_true in Hf, Ht.
    destruct (bool_decide (ar_to_address r1 = ar_from_address r2)) eqn:Hmid.
    + apply bool_decide_eq_true in Hmid. injection Hc as <-.
      split; [split|].
      * by exists r1.
      * exists r2. by rewrite Hmid.
      * by apply elem_of_endpoints_to.
    + exfalso. apply Hab. simpl in Hor. apply bool_decide_eq_true in Hor. congruence.
  - intros [[(r1 & Hr1 & Hf1 & Ht1) (r2 & Hr2 & Hf2 & Ht2)] _].
    exists r1, r2. split; [done|]. split; [done|].
    rewrite Hf1, Ht1, Hf2, Ht2. rewrite !bool_decide_eq_true_2 by done. done.
Qed.

(** For a pair (A,A) the second branch of the query is live: every
    outgoing row of [A] joins every incoming row and contributes [A]
    itself. *)
Example common_connections_same_account :
  common_connections store_in_and_out "A" "A" = 1%nat
  /\ size (two_hop_intermediaries store_in_and_out "A" "A") = 0%nat.
Proof. split; vm_compute; reflexivity. Qed.

(** C3: with the edges [X -> A] and [B -> X] alone, which the
    specification counts as a common connection of (A,B), the query
    counts none: its second branch, written for this case, compares the
    two addresses that the parameters fix. *)
Theorem reverse_hop_not_counted :
  common_connections store_reverse_hop "A" "B" = 0%nat
  /\ common_connections_spec store_reverse_hop "A" "B" = 1%nat
  /\ ~ common_connections_as_specified store_reverse_hop "A" "B".
Proof.
  split; [vm_compute; reflexivity|]. split; [vm_compute; reflexivity|].
  unfold common_connections_as_specified. vm_compute. discriminate.
Qed.

(** ** The percentile ranker *)

(** C6, as stated, fails twice.  On the average-size population the row
    (C,D) of [store_empty_relationship] has average size 0 < 10 by the
    specified formula, so the specified rank of (A,B) is 1/2, but the
    query leaves that row out of the count and ranks (A,B) at 0.  On the
    volume population of [store_large_volumes] the volume [2^53] of (C,D)
    is below the volume [2^53 + 1] of (A,B), so the specified rank of
    (A,B) is 1/2, but both volumes are the same double and the query
    ranks (A,B) at 0. *)
Lemma percentile_ranks_counterexample :
  ~ percentile_ranks_as_specified store_empty_relationship "A" "B"
  /\ ~ percentile_ranks_as_specified store_large_volumes "A" "B".
Proof.
  split; intros Hclaim.
  - destruct (Hclaim _ eq_refl) as (vr & ar & [_ Har] & _ & Havg & _).
    vm_compute in Har. injection Har as <-.
    vm_compute in Havg. discriminate Havg.
  - destruct (Hclaim _ eq_refl) as (vr & ar & [Hvr _] & Hvol & _).
    vm_compute in Hvr. injection Hvr as <-.
    vm_compute in Hvol. discriminate Hvol.
Qed.

Example empty_relationship_ranks :
  dict_get "avg_size_percentile"
    (calculate_volume_score store_empty_relationship "A" "B").2 = Some (VNum (0 # 2))
  /\ percentile_rank 10 (avg_size_population store_empty_relationship) == 1 # 2.
Proof. split; vm_compute; reflexivity. Qed.

Example large_volume_ranks :
  dict_get "volume_percentile"
    (calculate_volume_score store_large_volumes "A" "B").2 = Some (VNum (0 # 2))
  /\ percentile_rank 9007199254740993 (total_volume_population store_large_volumes)
     == 1 # 2.
Proof. split; vm_compute; reflexivity. Qed.

Lemma count_where_map {A B} (f : A -> B) (p : B -> bool) (l : list A) :
  count_where p (map f l) = count_where (fun x => p (f x)) l.
Proof.
  unfold count_where. induction l as [|x l IH]; [done|].
  simpl. destruct (p (f x)); simpl; by rewrite IH.
Qed.

Lemma count_where_cons {A} (p : A -> bool) (x : A) (l : list A) :
  count_where p (x :: l) = if p x then S (count_where p l) else count_where p l.
Proof. unfold count_where. simpl. by destruct (p x). Qed.

Lemma count_where_le_length {A} (p : A -> bool) (l : list A) :
  (count_where p l <= length l)%nat.
Proof.
  unfold count_where. induction l as [|x l IH]; [done|].
  simpl. destruct (p x); simpl; lia.
Qed.

(** A row that is not counted keeps the count below the size. *)
Lemma count_where_lt_length {A} (p : A -> bool) (l : list A) (x : A) :
  In x l -> p x = false -> (count_where p l < length l)%nat.
Proof.
  intros Hin Hp. induction l as [|y l IH]; [done|].
  unfold count_where in *. simpl. destruct Hin as [->|Hin].
  - rewrite Hp. pose proof (count_where_le_length p l). unfold count_where in *. lia.
  - specialize (IH Hin). destruct (p y); simpl; lia.
Qed.

Lemma count_where_filter {A} (p q : A -> bool) (l : list A) :
  count_where p (List.filter q l) = count_where (fun x => q x && p x) l.
Proof.
  unfold count_where. induction l as [|x l IH]; [done|].
  simpl. destruct (q x); simpl; [destruct (p x); simpl|]; by rewrite IH.
Qed.

Lemma count_where_ext {A} (p q : A -> bool) (l : list A) :
  (forall x, p x = q x) -> count_where p l = count_where q l.
Proof.
  intros Hpq. unfold count_where. induction l as [|x l IH]; [done|].
  simpl. rewrite Hpq. destruct (q x); simpl; by rewrite IH.
Qed.

Lemma find_relationship_In (st : Store) (a b : address) (row : AccountRelationship) :
  find_relationship st a b = Some row ->
  In row (account_relationships st) /\ is_pair a b row = true.
Proof. unfold find_relationship. apply find_some. Qed.

Lemma below_unit (c n : nat) : (c < n)%nat -> in_unit_interval (natQ c / natQ n).
Proof.
  intros Hlt. assert (0 < natQ n) as Hn.
  { change 0 with (natQ 0). apply natQ_lt. lia. }
  split.
  - apply Qdiv_nonneg; [apply natQ_nonneg|lra].
  - apply Qlt_shift_div_r; [done|]. rewrite Qmult_1_l. by apply natQ_lt.
Qed.

Lemma avg_size_below_self (r : AccountRelationship) :
  avg_size_below
    (fl (to_double (ar_total_volume r) / to_double (N.max (ar_transfer_count r) 1))) r
  = false.
Proof.
  unfold avg_size_below.
  destruct (N.eqb (ar_transfer_count r) 0) eqn:E; [done|].
  apply N.eqb_neq in E. rewrite N.max_l by lia. apply Qltb_irrefl.
Qed.

Lemma total_rel_length (st : Store) (row : AccountRelationship) :
  In row (account_relationships st) -> total_rel st = length (account_relationships st).
Proof.
  unfold total_rel. destruct (account_relationships st); [done|]. simpl. lia.
Qed.

Lemma Qltb_comp (x x' y y' : Q) : x == x' -> y == y' -> Qltb x y = Qltb x' y'.
Proof. intros Hx Hy. unfold Qltb. by rewrite (Qcompare_comp _ _ Hx _ _ Hy). Qed.

(** C6 (amended): the volume percentile is the number of rows whose
    [total_volume], cast to a double, is strictly below the double of the
    input, over [max(rows, 1)]; where every stored volume is below [2^53]
    the doubles are the stored values and this is the specified rank.
    The average-size percentile counts, over the same denominator, only
    rows with a non-zero [transfer_count] whose quotient of doubles is
    strictly below the input: a row without transfers has no average and
    is never counted.  Both ranks lie in [0,1), the subject's own row
    never being counted. *)
Theorem volume_scorer_percentile_ranks (st : Store) (a b : address)
    (row : AccountRelationship) :
  find_relationship st a b = Some row ->
  let total_volume := to_double (ar_total_volume row) in
  let avg_transfer_size :=
    fl (total_volume / to_double (N.max (ar_transfer_count row) 1)) in
  exists volume_rank avg_size_rank : Q,
    reported_ranks st a b volume_rank avg_size_rank
    /\ volume_rank = percentile_rank total_volume (total_volume_doubles st)
    /\ avg_size_rank
       = natQ (count_where (fun x => Qltb x avg_transfer_size)
                 (defined_avg_size_doubles st))
         / natQ (Nat.max (length (account_relationships st)) 1)
    /\ in_unit_interval volume_rank
    /\ in_unit_interval avg_size_rank
    /\ (Forall (fun r => (ar_total_volume r < 2 ^ 53)%N) (account_relationships st) ->
        volume_rank
        = percentile_rank (NQ (ar_total_volume row)) (total_volume_population st)).
Proof.
  intros Hrow total_volume avg_transfer_size.
  destruct (find_relationship_In _ _ _ _ Hrow) as [Hin _].
  exists (volume_percentile st total_volume),
         (avg_size_percentile st avg_transfer_size).
  unfold reported_ranks, calculate_volume_score. rewrite Hrow.
  cbn [snd dict_get String.eqb Ascii.eqb Bool.eqb].
  split; [done|].
  split; [|split; [|split; [|split]]].
  - unfold volume_percentile, percentile_rank, total_volume_doubles, total_rel.
    by rewrite count_where_map, length_map.
  - unfold avg_size_percentile, defined_avg_size_doubles, total_rel.
    rewrite count_where_map, count_where_filter.
    do 2 f_equal. apply count_where_ext. intros r.
    unfold avg_size_below, avg_size_double.
    by destruct (N.eqb (ar_transfer_count r) 0).
  - apply below_unit. rewrite (total_rel_length st row Hin).
    apply (count_where_lt_length _ _ row Hin). apply Qltb_irrefl.
  - apply below_unit. rewrite (total_rel_length st row Hin).
    apply (count_where_lt_length _ _ row Hin).
    apply avg_size_below_self.
  - intros Hsmall.
    unfold volume_percentile, percentile_rank, total_volume_population, total_rel.
    rewrite count_where_map, length_map. do 2 f_equal.
    unfold count_where. f_equal. apply filter_ext_in. intros r Hr.
    rewrite Forall_forall in Hsmall.
    unfold volume_below, total_volume. apply Qltb_comp.
    + apply to_double_exact, Hsmall. by apply list_elem_of_In.
    + apply to_double_exact, Hsmall. by apply list_elem_of_In.
Qed.

Lemma volume_scorer_percentile_ranks_witness :
  find_relationship store_empty_relationship "A" "B" = Some (relationship "A" "B" 10 1)
  /\ exists volume_rank avg_size_rank : Q,
       reported_ranks store_empty_relationship "A" "B" volume_rank avg_size_rank
       /\ in_unit_interval volume_rank
       /\ in_unit_interval avg_size_rank.
Proof.
  split; [reflexivity|].
  destruct (volume_scorer_percentile_ranks store_empty_relationship "A" "B"
              (relationship "A" "B" 10 1) eq_refl)
    as (v & s & Hrep & _ & _ & Hvr & Hsr & _).
  exists v, s. repeat split; assumption || apply Hrep || apply Hvr || apply Hsr.
Defined.

(** ** Monotonicity of the volume component *)

Lemma set_total_volume_length (a b : address) (v : N) (rows : list AccountRelationship) :
  length (set_total_volume a b v rows) = length rows.
Proof.
  induction rows as [|r rows IH]; [done|].
  simpl. destruct (is_pair a b r); simpl; by rewrite ?IH.
Qed.

Lemma set_total_volume_find (a b : address) (v : N) (rows : list AccountRelationship)
    (row : AccountRelationship) :
  List.find (is_pair a b) rows = Some row ->
  List.find (is_pair a b) (set_total_volume a b v rows) = Some (with_volume row v).
Proof.
  induction rows as [|r rows IH]; [done|].
  simpl. destruct (is_pair a b r) eqn:E.
  - intros [= <-]. simpl. unfold is_pair in *. simpl. by rewrite E.
  - intros Hfind. simpl. rewrite E. by apply IH.
Qed.

Lemma volume_below_mono (v v' : Q) (r : AccountRelationship) :
  v <= v' -> volume_below v r = true -> volume_below v' r = true.
Proof.
  unfold volume_below. rewrite !Qltb_lt. intros Hle Hlt. lra.
Qed.

Lemma count_where_mono {A} (p q : A -> bool) (l : list A) :
  (forall x, p x = true -> q x = true) -> (count_where p l <= count_where q l)%nat.
Proof.
  intros Hpq. unfold count_where. induction l as [|x l IH]; [done|].
  simpl. destruct (p x) eqn:Ep.
  - rewrite (Hpq x Ep). simpl. lia.
  - destruct (q x); simpl; lia.
Qed.

(** Raising the subject's volume never lowers its rank count: the cast
    to a double keeps the order, so the rows below the old value stay
    below the new one, and the subject's own row is counted neither
    before nor after. *)
Lemma volume_rank_mono (a b : address) (v' : N) (rows : list AccountRelationship)
    (row : AccountRelationship) :
  List.find (is_pair a b) rows = Some row ->
  (ar_total_volume row <= v')%N ->
  (count_where (volume_below (to_double (ar_total_volume row))) rows
   <= count_where (volume_below (to_double v')) (set_total_volume a b v' rows))%nat.
Proof.
  intros Hfind Hle. pose proof (to_double_mono _ _ Hle) as HleQ.
  induction rows as [|r rows IH]; [done|].
  simpl in Hfind |- *. destruct (is_pair a b r) eqn:E.
  - injection Hfind as ->. rewrite !count_where_cons.
    assert (volume_below (to_double (ar_total_volume row)) row = false) as ->
      by apply Qltb_irrefl.
    assert (volume_below (to_double v') (with_volume row v') = false) as ->
      by apply Qltb_irrefl.
    apply count_where_mono. intros x. by apply volume_below_mono.
  - specialize (IH Hfind). rewrite !count_where_cons.
    destruct (volume_below (to_double (ar_total_volume row)) r) eqn:Er.
    + rewrite (volume_below_mono _ _ _ HleQ Er). lia.
    + destruct (volume_below (to_double v') r); lia.
Qed.

Lemma Qdiv_le_compat_r (x y z : Q) : 0 <= z -> x <= y -> x / z <= y / z.
Proof.
  intros Hz Hxy. unfold Qdiv. apply Qmult_le_compat_r; [done|].
  by apply Qinv_le_0_compat.
Qed.

(** C7: raising the [total_volume] of a relationship row, everything else
    in the store being kept, never lowers the [volume_component] that the
    volume scorer reports for it: the component is
    [min(40, rank * 40)] for the rank of the volume, as a double, among
    the volumes of all rows, as doubles. *)
Theorem volume_component_monotone (st : Store) (a b : address)
    (row : AccountRelationship) (v' : N) :
  find_relationship st a b = Some row ->
  (ar_total_volume row <= v')%N ->
  exists c c' : Q,
    dict_get "volume_component" (calculate_volume_score st a b).2 = Some (VNum c)
    /\ dict_get "volume_component"
         (calculate_volume_score (store_with_volume st a b v') a b).2 = Some (VNum c')
    /\ c = Qmin 40 (percentile_rank (to_double (ar_total_volume row))
                      (total_volume_doubles st) * 40)
    /\ c' = Qmin 40 (percentile_rank (to_double v')
                       (total_volume_doubles (store_with_volume st a b v')) * 40)
    /\ c <= c'.
Proof.
  intros Hrow Hle.
  assert (Hrow' : find_relationship (store_with_volume st a b v') a b
                  = Some (with_volume row v'))
    by (by apply set_total_volume_find).
  exists (Qmin 40 (volume_percentile st (to_double (ar_total_volume row)) * 40)),
         (Qmin 40 (volume_percentile (store_with_volume st a b v') (to_double v') * 40)).
  unfold calculate_volume_score. rewrite Hrow, Hrow'.
  cbn [snd dict_get String.eqb Ascii.eqb Bool.eqb with_volume ar_total_volume].
  split; [done|]. split; [done|].
  assert (Hrank : forall s v, volume_percentile s v
                              = percentile_rank v (total_volume_doubles s)).
  { intros s v.
    unfold volume_percentile, percentile_rank, total_volume_doubles, total_rel.
    by rewrite count_where_map, length_map. }
  rewrite <- !Hrank. split; [done|]. split; [done|].
  apply Q.min_le_compat_l.
  apply Qmult_le_compat_r; [|lra].
  unfold volume_percentile, total_rel, store_with_volume.
  cbn [account_relationships]. rewrite set_total_volume_length.
  apply Qdiv_le_compat_r; [apply natQ_nonneg|].
  apply natQ_le. by apply volume_rank_mono.
Qed.

Lemma volume_component_monotone_witness :
  exists c c' : Q,
    dict_get "volume_component"
      (calculate_volume_score store_active "A" "X").2 = Some (VNum c)
    /\ dict_get "volume_component"
         (calculate_volume_score (store_with_volume store_active "A" "X" 1000) "A" "X").2
       = Some (VNum c')
    /\ c <= c'.
Proof.
  destruct (volume_component_monotone store_active "A" "X"
              (relationship "A" "X" 77 1) 1000 eq_refl)
    as (c & c' & Hc & Hc' & _ & _ & Hle).
  - vm_compute. discriminate.
  - exists c, c'. auto.
Defined.

Example raised_volume_components :
  dict_get "volume_component" (calculate_volume_score store_active "A" "X").2
    = Some (VNum (0 # 3))
  /\ dict_get "volume_component"
       (calculate_volume_score (store_with_volume store_active "A" "X" 1000) "A" "X").2
     = Some (VNum (40 # 3)).
Proof. split; vm_compute; reflexivity. Qed.

(** ** The new-account flag of the risk scorer *)

Lemma timedelta_days_before (t1 t2 : timestamp) :
  (t1 < t2)%Z -> (timedelta_days t1 t2 < 0)%Z.
Proof.
  intros Hlt. unfold timedelta_days.
  apply Z.div_lt_upper_bound; [by vm_compute|]. lia.
Qed.

(** The account the risk scorer compares with is the row stored under the
    receiving address, if there is one. *)
Lemma find_account_rows (st : Store) (addr : address) :
  find_account st addr = head (account_rows st addr).
Proof.
  unfold find_account, account_rows.
  induction (accounts st) as [|acc l IH]; [done|].
  cbn. by destruct (bool_decide (a_address acc = addr)).
Qed.

Lemma account_rows_address (st : Store) (addr : address) (acc : Account)
    (others : list Account) :
  account_rows st addr = acc :: others ->
  acc ∈ accounts st /\ a_address acc = addr.
Proof.
  intros Hrows.
  assert (In acc (account_rows st addr)) as Hin by (rewrite Hrows; by left).
  unfold account_rows in Hin. apply filter_In in Hin as [Hin Haddr].
  apply bool_decide_eq_true in Haddr. by rewrite list_elem_of_In.
Qed.

Lemma new_account_flag_1 (st : Store) (b : address) (rel_data : AccountRelationship) :
  new_account_flag (find_account st b) rel_data = 1%nat
  <-> new_account_condition st b rel_data.
Proof.
  rewrite find_account_rows. unfold new_account_flag, new_account_condition. split.
  - destruct (account_rows st b) as [|acc others]; [done|]. cbn [head].
    destruct (ar_created_at rel_data) as [rc|]; [|done].
    destruct (Z.ltb _ 7) eqn:E; [|done].
    intros _. exists acc, others, rc. apply Z.ltb_lt in E. done.
  - intros (acc & others & rc & -> & -> & Hlt). cbn [head].
    apply Z.ltb_lt in Hlt. by rewrite Hlt.
Qed.

Lemma new_account_flag_cases (account_data : option Account)
    (rel_data : AccountRelationship) :
  new_account_flag account_data rel_data = 1%nat
  \/ new_account_flag account_data rel_data = 0%nat.
Proof.
  unfold new_account_flag. destruct account_data; [|by right].
  destruct (ar_created_at rel_data); [|by right].
  destruct (Z.ltb _ 7); [by left|by right].
Qed.

(** C10: when the risk scorer reaches its breakdown, [new_account_risk] is
    20 exactly when the receiving account [b] has a row in [accounts],
    the relationship has a non-null [created_at] and the signed [days] of
    the difference between the relationship's and that account's
    [created_at] is below 7, which covers every relationship first seen
    before the account was created; it is 0 otherwise, in particular
    whenever [accounts] has no row for [b] or the relationship's
    [created_at] is missing. *)
Theorem new_account_risk_value (st : Store) (a b : address)
    (rel_data : AccountRelationship) :
  find_relationship st a b = Some rel_data ->
  exists risk : Q,
    dict_get "new_account_risk" (calculate_risk_score st a b).2 = Some (VNum risk)
    /\ (risk == 20 \/ risk == 0)
    /\ (risk == 20 <-> new_account_condition st b rel_data)
    /\ (account_rows st b = [] \/ ar_created_at rel_data = None -> risk == 0)
    /\ (forall acc others rel_created,
          account_rows st b = acc :: others ->
          ar_created_at rel_data = Some rel_created ->
          acc ∈ accounts st /\ a_address acc = b
          /\ ((rel_created < a_created_at acc)%Z -> risk == 20)
          /\ ((7 <= timedelta_days rel_created (a_created_at acc))%Z -> risk == 0)).
Proof.
  intros Hrow.
  exists (natQ (new_account_flag (find_account st b) rel_data) * 20).
  unfold calculate_risk_score. rewrite Hrow.
  cbn [snd dict_get String.eqb Ascii.eqb Bool.eqb].
  split; [done|].
  pose proof (new_account_flag_1 st b rel_data) as Hflag.
  destruct (new_account_flag_cases (find_account st b) rel_data) as [E|E]; rewrite E.
  - pose proof (proj1 Hflag E) as Hcond.
    split; [by left|]. split; [|split].
    + split; [by intros _|done].
    + intros Hmiss. destruct Hcond as (acc & others & rc & Hacc & Hrc & _).
      destruct Hmiss; congruence.
    + intros acc others rc Hacc Hrc.
      split; [by eapply account_rows_address|].
      split; [by eapply account_rows_address|].
      split; [done|]. intros Hge. exfalso.
      destruct Hcond as (acc' & others' & rc' & Hacc' & Hrc' & Hlt).
      rewrite Hacc in Hacc'. rewrite Hrc in Hrc'.
      injection Hacc' as <- _. injection Hrc' as <-. lia.
  - assert (~ new_account_condition st b rel_data) as Hcond.
    { intros Hcond. apply Hflag in Hcond. congruence. }
    split; [by right|]. split; [|split].
    + split; [intros Heq; vm_compute in Heq; discriminate|done].
    + done.
    + intros acc others rc Hacc Hrc.
      split; [by eapply account_rows_address|].
      split; [by eapply account_rows_address|].
      split; [|done]. intros Hlt. exfalso. apply Hcond.
      exists acc, others, rc. split; [done|]. split; [done|].
      pose proof (timedelta_days_before _ _ Hlt). lia.
Qed.

(** The relationship of [store_active] was first seen one day after [B]
    was created. *)
Lemma new_account_risk_value_witness :
  exists risk : Q,
    dict_get "new_account_risk" (calculate_risk_score store_active "A" "B").2
      = Some (VNum risk)
    /\ (risk == 20 \/ risk == 0).
Proof.
  destruct (new_account_risk_value store_active "A" "B"
              {| ar_from_address := "A"; ar_to_address := "B";
                 ar_total_volume := 1000000001234; ar_transfer_count := 2;
                 ar_created_at := Some (3 * us_per_day)%Z |} eq_refl)
    as (risk & Hrisk & Hcases & _).
  exists risk. split; assumption.
Defined.

Example new_account_risk_early :
  dict_get "new_account_risk" (calculate_risk_score store_early_relationship "A" "B").2
  = Some (VNum 20).
Proof. vm_compute. reflexivity. Qed.

(** ** Rapid transfers *)

(** Two transfers exactly five minutes apart: on 2024-01-01 the
    difference of the two Julian days, in minutes, is a double below 5 and
    the pair is counted; on day 3 of the time line it is not. *)
Example five_minutes_apart :
  within_five_minutes new_year_2024 (new_year_2024 + 5 * us_per_minute) = true
  /\ within_five_minutes (3 * us_per_day) (3 * us_per_day + 5 * us_per_minute) = false
  /\ Qred (julianday new_year_2024) = 4920621 # 2.
Proof. vm_compute. by repeat split. Qed.

(** ** Runs of the centrality engine *)

Section EngineRuns.
Context `{Runtime}.

Lemma with_working_metrics_id (c : Connection) :
  with_working_metrics c (account_network_metrics (working c)) = c.
Proof. by destruct c as [cm [ac tr rel nm]]. Qed.

Lemma with_working_metrics_twice (c : Connection) (t1 t2 : gmap address NetworkMetrics) :
  with_working_metrics (with_working_metrics c t1) t2 = with_working_metrics c t2.
Proof. done. Qed.

(** The loop never commits: whatever it does, the published store is
    the one it started from. *)
Lemma upsert_nodes_committed (row_of : address -> NetworkMetrics)
    (nodes : list address) (c : Connection) :
  committed (upsert_nodes row_of nodes c).1 = committed c.
Proof.
  revert c. induction nodes as [|node nodes IH]; intros c; [done|].
  cbn [upsert_nodes]. unfold mbind, M_bind, execute_upsert.
  destruct (execute_fault node) as [e|]; [done|].
  by rewrite IH.
Qed.

(** Without a storage fault the loop writes every node and returns. *)
Lemma upsert_nodes_ok (row_of : address -> NetworkMetrics)
    (nodes : list address) (c : Connection) :
  Forall (fun node => execute_fault node = None) nodes ->
  upsert_nodes row_of nodes c
  = (with_working_metrics c
       (upsert_table row_of nodes (account_network_metrics (working c))),
     Ok ()).
Proof.
  revert c. induction nodes as [|node nodes IH]; intros c Hok.
  - cbn. by rewrite with_working_metrics_id.
  - apply Forall_cons in Hok as [Hnode Hok].
    cbn [upsert_nodes]. unfold mbind, M_bind, execute_upsert. rewrite Hnode.
    rewrite (IH _ Hok). done.
Qed.

(** A storage fault on some node stops the loop with that exception. *)
Lemma upsert_nodes_raise (row_of : address -> NetworkMetrics)
    (nodes : list address) (c : Connection) :
  Exists (fun node => is_Some (execute_fault node)) nodes ->
  exists c' e, upsert_nodes row_of nodes c = (c', Raise e).
Proof.
  revert c. induction nodes as [|node nodes IH]; intros c Hex.
  - by apply Exists_nil in Hex.
  - cbn [upsert_nodes]. unfold mbind, M_bind, execute_upsert.
    destruct (execute_fault node) as [e|] eqn:Hnode; [by eexists _, _|].
    apply Exists_cons in Hex as [Hhere|Hlater].
    + rewrite Hnode in Hhere. by destruct Hhere.
    + by apply IH.
Qed.

Lemma faults_decide (nodes : list address) :
  Forall (fun node => execute_fault node = None) nodes
  \/ Exists (fun node => is_Some (execute_fault node)) nodes.
Proof.
  induction nodes as [|node nodes [IH|IH]].
  - left. constructor.
  - destruct (execute_fault node) as [e|] eqn:Hnode.
    + right. apply Exists_cons_hd. rewrite Hnode. by eexists.
    + left. by constructor.
  - right. by apply Exists_cons_tl.
Qed.

(** Every run either raises, leaving the published store alone, or
    commits the table with every node of the graph rewritten. *)
Lemma update_network_metrics_outcome (clk : Clock) (c : Connection) :
  (run_fails c
   /\ exists c' e, update_network_metrics clk c = (c', Raise e)
                   /\ committed c' = committed c)
  \/ (exists rr, run_computes c rr
      /\ update_network_metrics clk c
         = (commit (with_working_metrics c
                      (upsert_table (run_rows clk c rr) (g_nodes (run_graph c))
                         (account_network_metrics (working c)))),
            Ok ())).
Proof.
  unfold update_network_metrics, run_fails, run_computes, run_rows.
  unfold mbind, M_bind, select_relationships, lift, conn_commit.
  destruct select_fault as [e|] eqn:Hsel;
    [left; split; [left; by eexists|by eexists _, _]|].
  fold (run_graph c).
  destruct (nx_degree_centrality (run_graph c)) as [dc|e] eqn:Hdc;
    [|left; split; [by right; left|by eexists _, _]].
  destruct (nx_betweenness_centrality (run_graph c)) as [bc|e] eqn:Hbc;
    [|left; split; [by do 2 right; left|by eexists _, _]].
  destruct (nx_closeness_centrality (run_graph c)) as [cc|e] eqn:Hcc;
    [|left; split; [by do 3 right; left|by eexists _, _]].
  destruct (nx_pagerank (run_graph c)) as [pr|e] eqn:Hpr;
    [|left; split; [by do 4 right; left|by eexists _, _]].
  destruct (nx_clustering (run_graph c)) as [cl|e] eqn:Hcl;
    [|left; split; [by do 5 right; left|by eexists _, _]].
  destruct (faults_decide (g_nodes (run_graph c))) as [Hok|Hfault].
  - right.
    exists {| rr_degree := dc; rr_betweenness := bc; rr_closeness := cc;
              rr_pagerank := pr; rr_clustering := cl |}.
    cbn [rr_degree rr_betweenness rr_closeness rr_pagerank rr_clustering].
    split; [done|]. by rewrite (upsert_nodes_ok _ _ _ Hok).
  - left. split; [by do 6 right|].
    pose proof (upsert_nodes_committed
                  (metrics_row clk (run_graph c) dc bc cc cl pr)
                  (g_nodes (run_graph c)) c) as Hcm.
    destruct (upsert_nodes_raise
                (metrics_row clk (run_graph c) dc bc cc cl pr) _ c Hfault)
      as (c' & e & Hrun).
    rewrite Hrun in Hcm |- *. by eexists _, _.
Qed.

Lemma run_fails_not_computes (c : Connection) (rr : RunResult) :
  run_fails c -> run_computes c rr -> False.
Proof.
  intros Hf (Hsel & Hdc & Hbc & Hcc & Hpr & Hcl & Hok).
  destruct Hf as [Hf|[Hf|[Hf|[Hf|[Hf|[Hf|Hf]]]]]];
    try (rewrite ?Hdc, ?Hbc, ?Hcc, ?Hpr, ?Hcl in Hf; discriminate Hf).
  { rewrite Hsel in Hf. by destruct Hf. }
  apply Exists_exists in Hf as (node & Hin & Hsome).
  rewrite Forall_forall in Hok. rewrite (Hok node Hin) in Hsome.
  by destruct Hsome.
Qed.

(** C9: when a step of the engine's run fails before the final commit
    (the read of the relationships, a graph algorithm or the write of a
    node raises), the run
    ends with that exception raised to its caller, and the store other
    connections read, its metrics snapshot included, is the one from
    before the run. *)
Theorem failed_run_keeps_snapshot (clk : Clock) (c : Connection) :
  run_fails c ->
  exists c' e,
    update_network_metrics clk c = (c', Raise e)
    /\ committed c' = committed c
    /\ account_network_metrics (committed c')
       = account_network_metrics (committed c).
Proof.
  intros Hfails.
  destruct (update_network_metrics_outcome clk c)
    as [(_ & c' & e & Hrun & Hcm)|(rr & Hrr & _)].
  - exists c', e. by rewrite Hcm.
  - destruct (run_fails_not_computes c rr Hfails Hrr).
Qed.

End EngineRuns.

(** ** Recomputation *)


Example day_6_and_day_60_scores :
  Qred (calculate_temporal_score store_active clock_day_6 "A" "B").1 = 5128 # 73
  /\ Qred (calculate_temporal_score store_active clock_day_60 "A" "B").1 = 1113 # 73
  /\ dict_get "days_since_last"
       (calculate_temporal_score store_active clock_day_6 "A" "B").2 = Some (VInt 0)
  /\ dict_get "days_since_last"
       (calculate_temporal_score store_active clock_day_60 "A" "B").2 = Some (VInt 54).
Proof. vm_compute. repeat split; reflexivity. Qed.


Section Rerun.
Context `{Runtime}.

Lemma upsert_table_lookup (row_of : address -> NetworkMetrics) (nodes : list address)
    (tbl : gmap address NetworkMetrics) (addr : address) :
  upsert_table row_of nodes tbl !! addr
  = if bool_decide (addr ∈ nodes) then Some (row_of addr) else tbl !! addr.
Proof.
  revert tbl. induction nodes as [|node nodes IH]; intros tbl; [done|].
  change (upsert_table row_of (node :: nodes) tbl)
    with (upsert_table row_of nodes (<[node := row_of node]> tbl)).
  rewrite IH.
  destruct (decide (addr ∈ nodes)) as [Hin|Hnin].
  - rewrite (bool_decide_eq_true_2 _ Hin).
    by rewrite bool_decide_eq_true_2 by (by apply list_elem_of_further).
  - rewrite (bool_decide_eq_false_2 _ Hnin).
    destruct (decide (addr = node)) as [->|Hne].
    + rewrite lookup_insert_eq.
      by rewrite bool_decide_eq_true_2 by apply list_elem_of_here.
    + rewrite lookup_insert_ne by done.
      by rewrite bool_decide_eq_false_2 by (by apply not_elem_of_cons).
Qed.

Lemma run_computes_inj (c : Connection) (rr rr' : RunResult) :
  run_computes c rr -> run_computes c rr' -> rr = rr'.
Proof.
  intros (_ & D & B & C & P & L & _) (_ & D' & B' & C' & P' & L' & _).
  destruct rr, rr'. cbn in *. congruence.
Qed.

End Rerun.



(** ** Runs on concrete runtimes *)

Example build_graph_two_hop :
  g_nodes (build_graph (account_relationships store_two_hop)) = ["A"; "X"; "B"].
Proof. reflexivity. Qed.

Lemma run_fails_write_fault : @run_fails runtime_write_fault connection_two_hop.
Proof.
  do 6 right. change (g_nodes (run_graph connection_two_hop)) with ["A"; "X"; "B"].
  apply Exists_cons_tl, Exists_cons_hd. by eexists.
Defined.

Lemma failed_run_keeps_snapshot_witness :
  exists c' e,
    @update_network_metrics runtime_write_fault epoch connection_two_hop = (c', Raise e)
    /\ committed c' = committed connection_two_hop
    /\ account_network_metrics (committed c')
       = account_network_metrics (committed connection_two_hop).
Proof.
  apply (@failed_run_keeps_snapshot runtime_write_fault epoch connection_two_hop).
  exact run_fails_write_fault.
Defined.

(** The failed run wrote node [A] in its own transaction; nothing of it
    is published. *)
Example failed_run_partial_write :
  let c' := (@update_network_metrics runtime_write_fault epoch connection_two_hop).1 in
  (@update_network_metrics runtime_write_fault epoch connection_two_hop).2
    = Raise "disk I/O error"
  /\ is_Some (account_network_metrics (working c') !! "A")
  /\ account_network_metrics (committed c') = ∅.
Proof. vm_compute. split; [done|]. split; [by eexists|done]. Qed.


(** Run again without a fault, the engine rewrites the same columns. *)
Example second_run_commits :
  let c1 := (@update_network_metrics runtime_sound clock_day_6 connection_two_hop).1 in
  (@update_network_metrics runtime_sound clock_day_60 c1).2 = Ok ()
  /\ (@update_network_metrics runtime_write_fault clock_day_60 c1).2
     = Raise "disk I/O error".
Proof. vm_compute. by split. Qed.

(** * Properties of the rest of the scorer and of its consumers *)

(** ** Interpretation bands *)


Lemma score_category_cases (score : Q) :
  exists i, (i < 5)%nat /\ cats !! i = Some (score_category score).
Proof.
  unfold score_category, cats.
  destruct (Qle_bool score 20); [by exists 0%nat; split; [lia|]|].
  destruct (Qle_bool score 40); [by exists 1%nat; split; [lia|]|].
  destruct (Qle_bool score 60); [by exists 2%nat; split; [lia|]|].
  destruct (Qle_bool score 80); [by exists 3%nat; split; [lia|]|].
  by exists 4%nat; split; [lia|].
Qed.

(** X2: the five bars of the distribution chart add up to the number of
    scores: every score is filed under exactly one listed category. *)
Theorem category_counts_total (all_scores : list Q) :
  sum_nat (category_counts all_scores) = length all_scores.
Proof.
  induction all_scores as [|score l IH]; [reflexivity|].
  unfold category_counts in *. cbn [map length]. rewrite <- IH. clear IH.
  set (cs := map score_category l).
  destruct (score_category_cases score) as (i & Hi & Hcat).
  unfold cats in *. cbn [map sum_nat fold_right]. rewrite !count_where_cons.
  destruct i as [|[|[|[|[|i]]]]]; [| | | | |lia];
    injection Hcat as <-;
    repeat match goal with
           | |- context [String.eqb ?a ?b] =>
             let v := eval vm_compute in (String.eqb a b) in
             change (String.eqb a b) with v
           end.
  all: cbv iota; lia.
Qed.

(** ** Export *)

(** X3: an export writes no file: whatever the store, the pair and the
    path, [export_scores_to_json] raises [sqlite3.OperationalError] from
    the score it computes first, and the files are as they were. *)
Theorem export_writes_nothing (st : Store) (clk : Clock) (a b : address)
    (filepath : string) (files : gmap string ExportData) :
  export_scores_to_json st clk a b filepath files
  = (files, Raise "sqlite3.OperationalError").
Proof.
  unfold export_scores_to_json. by rewrite calculate_total_score_raises.
Qed.

(** ** Breakdowns that add up *)

Lemma Qmin_100_sum3 (a b c : Q) :
  a <= 40 -> b <= 30 -> c <= 30 -> Qmin 100 (a + b + c) == a + (b + (c + 0)).
Proof.
  intros Ha Hb Hc. rewrite Q.min_r by lra. ring.
Qed.

(** X5: the score that the volume, the frequency and the risk scorer
    return is exactly the sum of the components listed in its breakdown:
    the parts are capped at 40 + 30 + 30 (30 + 25 + 25 + 20 for the
    risk), so the final [min(100, ...)] never lowers the sum. *)
Theorem breakdowns_add_up (st : Store) (a b : address) :
  (calculate_volume_score st a b = (0, [])
   \/ adds_up (calculate_volume_score st a b)
        ["volume_component"; "avg_size_component"; "relative_volume_component"])
  /\ (calculate_frequency_score st a b = (0, [])
      \/ adds_up (calculate_frequency_score st a b)
           ["count_component"; "frequency_component"; "consistency_component"])
  /\ (calculate_risk_score st a b = (0, [])
      \/ adds_up (calculate_risk_score st a b)
           ["rapid_transfer_risk"; "round_number_risk"; "time_anomaly_risk";
            "new_account_risk"]).
Proof.
  split; [|split].
  - unfold calculate_volume_score.
    destruct (find_relationship st a b) as [row|]; [right|by left].
    eexists [_; _; _]. cbn [fst snd]. split; [by repeat constructor|].
    cbn [sum_Q fold_right]. apply Qmin_100_sum3; try apply Q.le_min_l.
    destruct (Qltb 0 _); [apply Q.le_min_l|discriminate].
  - unfold calculate_frequency_score.
    destruct (transfer_stats st a b) as [row|]; [|by left].
    destruct (N.eqb (ts_transfer_count row) 0); [by left|right].
    eexists [_; _; _]. cbn [fst snd]. split; [by repeat constructor|].
    cbn [sum_Q fold_right]. apply Qmin_100_sum3; apply Q.le_min_l.
  - unfold calculate_risk_score.
    destruct (find_relationship st a b) as [rel_data|]; [right|by left].
    eexists [_; _; _; _]. cbn [fst snd]. split; [by repeat constructor|].
    cbn [sum_Q fold_right].
    set (flag := new_account_flag _ _).
    assert (natQ flag * 20 <= 20) as Hflag.
    { destruct (new_account_flag_cases (find_account st b) rel_data) as [E|E];
        subst flag; rewrite E; discriminate. }
    set (r1 := Qmin 30 _). set (r2 := Qmin 25 _). set (r3 := Qmin 25 _).
    assert (r1 <= 30) by apply Q.le_min_l.
    assert (r2 <= 25) by apply Q.le_min_l.
    assert (r3 <= 25) by apply Q.le_min_l.
    rewrite Q.min_r by lra. ring.
Qed.

(** ** Scores that stay below 100 *)

Lemma Qmin_scaled_lt (cap p : Q) : 0 < cap -> p < 1 -> Qmin cap (p * cap) < cap.
Proof.
  intros Hcap Hp. eapply Qle_lt_trans; [apply Q.le_min_r|]. nra.
Qed.

Lemma transfer_stats_row (st : Store) (a b : address) (row : TransferStats) :
  transfer_stats st a b = Some row ->
  exists ar, find_relationship st a b = Some ar
             /\ ts_transfer_count row = ar_transfer_count ar
             /\ ts_transfers row = pair_transfers st a b
             /\ pair_transfers st a b <> [].
Proof.
  unfold transfer_stats. intros Hrow.
  destruct (find_relationship st a b) as [ar|]; [|done].
  destruct (pair_transfers st a b) as [|t ts] eqn:Hts; [done|].
  injection Hrow as <-. by exists ar.
Qed.

(** X6: the volume score and the frequency score of every pair are
    strictly below 100: a row is never ranked above itself, so the
    percentile parts stay strictly below their caps of 40 and 30. *)
Theorem volume_and_frequency_below_100 (st : Store) (a b : address) :
  (calculate_volume_score st a b).1 < 100
  /\ (calculate_frequency_score st a b).1 < 100.
Proof.
  split.
  - unfold calculate_volume_score.
    destruct (find_relationship st a b) as [row|] eqn:Hrow; cbn [fst]; [|reflexivity].
    destruct (find_relationship_In _ _ _ _ Hrow) as [Hin _].
    eapply Qle_lt_trans; [apply Q.le_min_r|].
    assert (volume_percentile st (to_double (ar_total_volume row)) < 1) as Hv.
    { apply below_unit. rewrite (total_rel_length st row Hin).
      apply (count_where_lt_length _ _ row Hin). apply Qltb_irrefl. }
    pose proof (Qmin_scaled_lt 40 _ eq_refl Hv) as Hvc.
    set (vc := Qmin 40 _) in *. set (ac := Qmin 30 _).
    set (rc := if Qltb 0 _ then _ else _).
    assert (ac <= 30) by apply Q.le_min_l.
    assert (rc <= 30).
    { subst rc. destruct (Qltb 0 _); [apply Q.le_min_l|discriminate]. }
    lra.
  - unfold calculate_frequency_score.
    destruct (transfer_stats st a b) as [row|] eqn:Hrow; cbn [fst]; [|reflexivity].
    destruct (N.eqb (ts_transfer_count row) 0); cbn [fst]; [reflexivity|].
    destruct (transfer_stats_row _ _ _ _ Hrow) as (ar & Har & Hcount & _).
    destruct (find_relationship_In _ _ _ _ Har) as [Hin _].
    eapply Qle_lt_trans; [apply Q.le_min_r|].
    assert (count_percentile st (ts_transfer_count row) < 1) as Hc.
    { apply below_unit. rewrite (total_rel_length st ar Hin).
      apply (count_where_lt_length _ _ ar Hin). rewrite Hcount. apply N.ltb_irrefl. }
    pose proof (Qmin_scaled_lt 40 _ eq_refl Hc) as Hcc.
    set (cc := Qmin 40 _) in *. set (fc := Qmin 30 _). set (sc := Qmin 30 _).
    assert (fc <= 30) by apply Q.le_min_l.
    assert (sc <= 30) by apply Q.le_min_l.
    lra.
Qed.

(** ** The temporal score over time *)

Lemma recency_component_antitone (d1 d2 : Z) :
  (d1 <= d2)%Z -> recency_component d2 <= recency_component d1.
Proof.
  intros Hle. unfold recency_component.
  repeat match goal with
         | |- context [Z.leb ?x ?y] => destruct (Z.leb_spec x y)
         end; try lia; discriminate.
Qed.

Lemma timedelta_days_mono (t1 t1' t2 : timestamp) :
  (t1 <= t1')%Z -> (timedelta_days t1 t2 <= timedelta_days t1' t2)%Z.
Proof.
  intros Hle. unfold timedelta_days. apply Z.div_le_mono; [by vm_compute|lia].
Qed.

Lemma sql_datetime_mono (t t' : timestamp) :
  (t <= t')%Z -> (sql_datetime t <= sql_datetime t')%Z.
Proof.
  intros Hle. unfold sql_datetime. apply Z.div_le_mono; [by vm_compute|lia].
Qed.

Lemma transfers_since_clock (clk1 clk2 : Clock) (days : Z) (ts : list Transfer) :
  (sql_now clk1 <= sql_now clk2)%Z ->
  (transfers_since clk2 days ts <= transfers_since clk1 days ts)%nat.
Proof.
  intros Hle. unfold transfers_since. apply count_where_mono. intros t Ht.
  apply Z.leb_le in Ht. apply Z.leb_le.
  pose proof (sql_datetime_mono _ _ Hle). lia.
Qed.

Lemma Qmin_le_compat_r (c x y : Q) : x <= y -> Qmin c x <= Qmin c y.
Proof. intros Hxy. by apply Q.min_le_compat_l. Qed.

(** X7: on an unchanged store the temporal score of a pair never grows
    as time passes: when both clocks have advanced, the recency part and
    the recent-activity part are at most what they were and the duration
    part is the same. *)
Theorem temporal_score_decays (st : Store) (clk1 clk2 : Clock) (a b : address) :
  (py_now clk1 <= py_now clk2)%Z ->
  (sql_now clk1 <= sql_now clk2)%Z ->
  (calculate_temporal_score st clk2 a b).1 <= (calculate_temporal_score st clk1 a b).1.
Proof.
  intros Hpy Hsql. unfold calculate_temporal_score.
  destruct (transfer_stats st a b) as [row|]; cbn [fst]; [|discriminate].
  pose proof (recency_component_antitone _ _
                (timedelta_days_mono _ _ (ts_last_transfer row) Hpy)) as Hrec.
  set (rec1 := recency_component (timedelta_days (py_now clk1) _)) in *.
  set (rec2 := recency_component (timedelta_days (py_now clk2) _)) in *.
  set (dur := Qmin 30 _).
  assert (Hact :
    (if N.ltb 0 (ts_transfer_count row)
     then Qmin 30 (natQ (transfers_since clk2 7 (ts_transfers row))
                     / NQ (ts_transfer_count row) * 15
                   + natQ (transfers_since clk2 30 (ts_transfers row))
                     / NQ (ts_transfer_count row) * 15)
     else 0)
    <= (if N.ltb 0 (ts_transfer_count row)
        then Qmin 30 (natQ (transfers_since clk1 7 (ts_transfers row))
                        / NQ (ts_transfer_count row) * 15
                      + natQ (transfers_since clk1 30 (ts_transfers row))
                        / NQ (ts_transfer_count row) * 15)
        else 0)).
  { destruct (N.ltb 0 (ts_transfer_count row)); [|discriminate].
    apply Qmin_le_compat_r.
    pose proof (Qdiv_le_compat_r _ _ (NQ (ts_transfer_count row))
                  (NQ_nonneg _)
                  (natQ_le _ _ (transfers_since_clock clk1 clk2 7
                                  (ts_transfers row) Hsql))).
    pose proof (Qdiv_le_compat_r _ _ (NQ (ts_transfer_count row))
                  (NQ_nonneg _)
                  (natQ_le _ _ (transfers_since_clock clk1 clk2 30
                                  (ts_transfers row) Hsql))).
    lra. }
  lra.
Qed.

Lemma temporal_score_decays_witness :
  (calculate_temporal_score store_active clock_day_60 "A" "B").1
  <= (calculate_temporal_score store_active clock_day_6 "A" "B").1.
Proof.
  apply (temporal_score_decays store_active clock_day_6 clock_day_60 "A" "B");
    vm_compute; discriminate.
Defined.

Lemma transfers_since_window (clk : Clock) (d1 d2 : Z) (ts : list Transfer) :
  (d1 <= d2)%Z -> (transfers_since clk d1 ts <= transfers_since clk d2 ts)%nat.
Proof.
  intros Hle. unfold transfers_since. apply count_where_mono. intros t Ht.
  apply Z.leb_le in Ht. apply Z.leb_le. lia.
Qed.

(** X8: in every temporal breakdown the transfers of the last week are at
    most those of the last month, which are at most the transfers the
    pair has in the [transfers] table. *)
Theorem recent_transfer_counts (st : Store) (clk : Clock) (a b : address) :
  calculate_temporal_score st clk a b = (0, [])
  \/ exists week month : nat,
       dict_get "transfers_last_week" (calculate_temporal_score st clk a b).2
         = Some (VInt (Z.of_nat week))
       /\ dict_get "transfers_last_month" (calculate_temporal_score st clk a b).2
          = Some (VInt (Z.of_nat month))
       /\ (week <= month <= length (pair_transfers st a b))%nat.
Proof.
  unfold calculate_temporal_score.
  destruct (transfer_stats st a b) as [row|] eqn:Hrow; [right|by left].
  destruct (transfer_stats_row _ _ _ _ Hrow) as (_ & _ & _ & Hts & _).
  eexists _, _. cbn [snd]. split; [reflexivity|]. split; [reflexivity|].
  split.
  - by apply transfers_since_window.
  - rewrite <- Hts. apply count_where_le_length.
Qed.

(** ** Active days and calendar days *)

Lemma min_timestamp_lower (t0 : timestamp) (l : list timestamp) (t : timestamp) :
  t = t0 \/ t ∈ l -> (min_timestamp t0 l <= t)%Z.
Proof.
  induction l as [|x l IH]; simpl.
  - intros [->|Hin]; [lia|by apply elem_of_nil in Hin].
  - intros [->|Hin].
    + specialize (IH (or_introl eq_refl)). lia.
    + apply elem_of_cons in Hin as [->|Hin]; [lia|].
      specialize (IH (or_intror Hin)). lia.
Qed.

Lemma max_timestamp_upper (t0 : timestamp) (l : list timestamp) (t : timestamp) :
  t = t0 \/ t ∈ l -> (t <= max_timestamp t0 l)%Z.
Proof.
  induction l as [|x l IH]; simpl.
  - intros [->|Hin]; [lia|by apply elem_of_nil in Hin].
  - intros [->|Hin].
    + specialize (IH (or_introl eq_refl)). lia.
    + apply elem_of_cons in Hin as [->|Hin]; [lia|].
      specialize (IH (or_intror Hin)). lia.
Qed.

Lemma NoDup_in_range (l : list Z) (lo hi : Z) :
  NoDup l -> (forall x, x ∈ l -> (lo <= x <= hi)%Z) ->
  (Z.of_nat (length l) <= Z.max 0 (hi - lo + 1))%Z.
Proof.
  intros Hnd Hrange.
  assert (l ⊆+ seqZ lo (hi - lo + 1)) as Hsub.
  { apply NoDup_submseteq; [done|]. intros x Hx.
    apply elem_of_seqZ. specialize (Hrange x Hx). lia. }
  apply submseteq_length in Hsub. rewrite length_seqZ in Hsub. lia.
Qed.

Lemma sql_date_span (first last : timestamp) :
  (sql_date last - sql_date first <= timedelta_days last first + 1)%Z.
Proof.
  unfold sql_date, timedelta_days.
  change us_per_day with 86400000000%Z.
  Z.div_mod_to_equations. lia.
Qed.

Lemma unique_days_bounds (t : Transfer) (ts : list Transfer) :
  let stamps := map t_timestamp ts in
  (1 <= Z.of_nat (unique_days (t :: ts))
   <= timedelta_days (max_timestamp (t_timestamp t) stamps)
        (min_timestamp (t_timestamp t) stamps) + 2)%Z.
Proof.
  intros stamps. unfold unique_days.
  set (dates := map (fun t0 => sql_date (t_timestamp t0)) (t :: ts)).
  set (first := min_timestamp (t_timestamp t) stamps).
  set (last := max_timestamp (t_timestamp t) stamps).
  split.
  - assert (sql_date (t_timestamp t) ∈ remove_dups dates) as Hin.
    { rewrite elem_of_remove_dups. subst dates. simpl. apply list_elem_of_here. }
    destruct (remove_dups dates); [by apply elem_of_nil in Hin|]. simpl. lia.
  - pose proof (NoDup_in_range (remove_dups dates) (sql_date first) (sql_date last)
                  (NoDup_remove_dups _)) as Hlen.
    pose proof (sql_date_span first last).
    assert (first <= last)%Z.
    { pose proof (min_timestamp_le (t_timestamp t) stamps).
      pose proof (max_timestamp_ge (t_timestamp t) stamps). lia. }
    pose proof (timedelta_days_nonneg _ _ H0).
    enough (forall x, x ∈ remove_dups dates -> (sql_date first <= x <= sql_date last)%Z)
      as Hrange by (specialize (Hlen Hrange); lia).
    intros x Hx. rewrite elem_of_remove_dups in Hx. subst dates.
    rewrite list_elem_of_In, in_map_iff in Hx. destruct Hx as (t' & <- & Ht').
    assert (t_timestamp t' = t_timestamp t \/ t_timestamp t' ∈ stamps) as Hstamp.
    { destruct Ht' as [->|Ht']; [by left|right].
      subst stamps. rewrite list_elem_of_In, in_map_iff. by exists t'. }
    pose proof (min_timestamp_lower _ _ _ Hstamp).
    pose proof (max_timestamp_upper _ _ _ Hstamp).
    unfold sql_date. split; apply Z.div_le_mono; try (by vm_compute); done.
Qed.

(** X9: in every frequency breakdown [unique_days] is at least 1 and at
    most [days_active + 1]: the active days are whole 24-hour spans
    between the first and the last transfer, and the transfers can fall on
    one calendar day more than that. *)
Theorem unique_days_at_most_one_over (st : Store) (a b : address) :
  calculate_frequency_score st a b = (0, [])
  \/ exists unique active : Z,
       dict_get "unique_days" (calculate_frequency_score st a b).2
         = Some (VInt unique)
       /\ dict_get "days_active" (calculate_frequency_score st a b).2
          = Some (VInt active)
       /\ (1 <= unique <= active + 1)%Z.
Proof.
  unfold calculate_frequency_score, transfer_stats.
  destruct (find_relationship st a b) as [ar|]; [|by left].
  destruct (pair_transfers st a b) as [|t ts]; [by left|].
  cbn [ts_transfer_count ts_first_transfer ts_last_transfer ts_transfers].
  destruct (N.eqb (ar_transfer_count ar) 0); [by left|right].
  eexists _, _. cbn [snd]. split; [reflexivity|]. split; [reflexivity|].
  pose proof (unique_days_bounds t ts) as Hb. cbn zeta in Hb. lia.
Qed.

(** The bound is reached: two transfers two hours apart around midnight
    make one active day and two calendar days. *)
Example midnight_unique_days :
  dict_get "unique_days" (calculate_frequency_score store_midnight "A" "B").2
    = Some (VInt 2)
  /\ dict_get "days_active" (calculate_frequency_score store_midnight "A" "B").2
     = Some (VInt 1)
  /\ dict_get "consistency_component"
       (calculate_frequency_score store_midnight "A" "B").2 = Some (VNum 30).
Proof. vm_compute. repeat split; reflexivity. Qed.

(** ** Pairs the grouped join leaves out *)

(** X10: the frequency scorer returns an empty breakdown exactly when the
    pair has no relationship row, or no row in [transfers], or a stored
    [transfer_count] of 0; the temporal scorer exactly in the first two
    cases.  A relationship row alone, whatever it counts, is not enough
    for either score. *)
Theorem empty_frequency_and_temporal (st : Store) (clk : Clock) (a b : address) :
  ((calculate_frequency_score st a b).2 = [] <->
   find_relationship st a b = None
   \/ pair_transfers st a b = []
   \/ exists ar, find_relationship st a b = Some ar /\ ar_transfer_count ar = 0%N)
  /\ ((calculate_temporal_score st clk a b).2 = [] <->
      find_relationship st a b = None \/ pair_transfers st a b = [])
  /\ ((calculate_frequency_score st a b).2 = [] ->
      (calculate_frequency_score st a b).1 = 0)
  /\ ((calculate_temporal_score st clk a b).2 = [] ->
      (calculate_temporal_score st clk a b).1 = 0).
Proof.
  unfold calculate_frequency_score, calculate_temporal_score, transfer_stats.
  destruct (find_relationship st a b) as [ar|].
  2: { repeat split; auto. }
  destruct (pair_transfers st a b) as [|t ts].
  { repeat split; auto. }
  cbn [ts_transfer_count]. destruct (N.eqb_spec (ar_transfer_count ar) 0) as [E|E].
  - split; [|split; [|split]]; cbn [fst snd]; try done.
    + split; [|done]. intros _. right. right. by exists ar.
    + split; [done|]. intros [|]; done.
  - split; [|split; [|split]]; cbn [fst snd]; try done.
    + split; [done|]. intros [|[|(ar' & [= <-] & Hz)]]; done.
    + split; [done|]. intros [|]; done.
Qed.

Example no_transfers_scores :
  calculate_frequency_score store_no_transfers "A" "B" = (0, [])
  /\ calculate_temporal_score store_no_transfers epoch "A" "B" = (0, [])
  /\ (calculate_volume_score store_no_transfers "A" "B").1 == 15.
Proof. vm_compute. repeat split; reflexivity. Qed.

(** ** Round amounts *)

Lemma Z_mod_multiple (x k m : Z) :
  (k * m <> 0 -> x mod (k * m) = 0 -> x mod m = 0)%Z.
Proof.
  intros Hne E.
  rewrite (Z.div_mod x (k * m)%Z Hne), E, Z.add_0_r.
  rewrite (Z.mul_comm (k * m)%Z), Z.mul_assoc. apply Z_mod_mult.
Qed.

Lemma is_round_number_collapse (v : N) :
  is_round_number v = real_mod_is_0 v 1000000000000.
Proof.
  unfold is_round_number, real_mod_is_0.
  set (x := sql_real_to_integer (to_double v)).
  destruct (Z.eqb_spec (x mod 1000000000000) 0) as [E|E]; [done|].
  cbn [orb].
  destruct (Z.eqb_spec (x mod 10000000000000) 0) as [E13|E13].
  { exfalso. apply E. by apply (Z_mod_multiple x 10). }
  destruct (Z.eqb_spec (x mod 100000000000000) 0) as [E14|E14]; [|done].
  exfalso. apply E. by apply (Z_mod_multiple x 100).
Qed.

(** A value below [2^53] reaches the [%] as it is stored. *)
Lemma real_mod_is_0_exact (v : N) (m : N) :
  (v < 2 ^ 53)%N -> real_mod_is_0 v (Z.of_N m) = N.eqb (v mod m) 0.
Proof.
  intros Hv. unfold real_mod_is_0, sql_real_to_integer.
  rewrite (Qfloor_comp _ _ (to_double_exact v Hv)). unfold NQ. rewrite Qfloor_Z.
  assert (Z.of_N v < 2 ^ 53)%Z as Hz.
  { change (2 ^ 53)%Z with (Z.of_N (2 ^ 53)). lia. }
  rewrite Z.min_l by lia. rewrite <- N2Z.inj_mod.
  destruct (N.eqb_spec (v mod m) 0) as [E|E].
  - rewrite E. reflexivity.
  - apply Z.eqb_neq. lia.
Qed.

(** X11: the three modulo tests of the round-number query count the
    transfers whose value, cast to a double and taken as an integer again,
    is a multiple of 10^12: the tests for 10^13 and 10^14 add nothing.
    Where the values of the pair's transfers are below [2^53] the cast
    changes nothing, and these are exactly the transfers whose value is
    a multiple of 10^12. *)
Theorem round_numbers_are_multiples (st : Store) (a b : address) :
  round_numbers st a b
  = count_where (fun t => real_mod_is_0 (t_value t) 1000000000000)
      (pair_transfers st a b)
  /\ (Forall (fun t => (t_value t < 2 ^ 53)%N) (pair_transfers st a b) ->
      round_numbers st a b
      = count_where (fun t => N.eqb (t_value t mod 1000000000000) 0)
          (pair_transfers st a b)).
Proof.
  assert (round_numbers st a b
          = count_where (fun t => real_mod_is_0 (t_value t) 1000000000000)
              (pair_transfers st a b)) as Hcount.
  { unfold round_numbers. apply count_where_ext. intros t.
    apply is_round_number_collapse. }
  split; [exact Hcount|].
  intros Hsmall. rewrite Hcount. unfold count_where. f_equal.
  apply filter_ext_in. intros t Ht.
  rewrite Forall_forall in Hsmall.
  apply (real_mod_is_0_exact (t_value t) 1000000000000).
  apply Hsmall. by apply list_elem_of_In.
Qed.

(** Above [2^53] the cast rounds: [10^16 + 1] is tested as [10^16]. *)
Example rounded_value_is_round :
  is_round_number 10000000000000001 = true
  /\ N.eqb (10000000000000001 mod 1000000000000) 0 = false.
Proof. split; vm_compute; reflexivity. Qed.

(** ** The graph of the engine *)

Lemma build_graph_snoc (rows : list AccountRelationship) (r : AccountRelationship) :
  build_graph (rows ++ [r])
  = add_edge (build_graph rows) (ar_from_address r) (ar_to_address r) (edge_of r).
Proof. unfold build_graph. by rewrite fold_left_app. Qed.

Lemma elem_of_add_node (nodes : list address) (n x : address) :
  x ∈ add_node nodes n <-> x ∈ nodes \/ x = n.
Proof.
  unfold add_node. destruct (bool_decide_reflect (n ∈ nodes)) as [Hin|Hnin].
  - split; [by left|]. intros [| ->]; done.
  - rewrite elem_of_app, list_elem_of_singleton. done.
Qed.

Lemma add_node_NoDup (nodes : list address) (n : address) :
  NoDup nodes -> NoDup (add_node nodes n).
Proof.
  intros Hnd. unfold add_node.
  destruct (bool_decide_reflect (n ∈ nodes)) as [Hin|Hnin]; [done|].
  apply NoDup_app. split; [done|]. split; [|apply NoDup_singleton].
  intros x Hx Hx'. apply list_elem_of_singleton in Hx' as ->. done.
Qed.

Lemma build_graph_nodes (rows : list AccountRelationship) :
  NoDup (g_nodes (build_graph rows))
  /\ forall x, x ∈ g_nodes (build_graph rows) <->
               exists r, r ∈ rows /\ (x = ar_from_address r \/ x = ar_to_address r).
Proof.
  induction rows as [|r rows [IHnd IHin]] using rev_ind.
  - split; [constructor|]. intros x. split.
    + intros Hx. by apply elem_of_nil in Hx.
    + intros (r & Hr & _). by apply elem_of_nil in Hr.
  - rewrite build_graph_snoc. cbn [add_edge g_nodes]. split.
    + by do 2 apply add_node_NoDup.
    + intros x. rewrite !elem_of_add_node, IHin. split.
      * intros [[(r' & Hr' & Hx)| ->]| ->].
        -- exists r'. split; [|done]. apply elem_of_app. by left.
        -- exists r. split; [|by left]. apply elem_of_app. right.
           by apply list_elem_of_singleton.
        -- exists r. split; [|by right]. apply elem_of_app. right.
           by apply list_elem_of_singleton.
      * intros (r' & Hr' & Hx). apply elem_of_app in Hr' as [Hr'|Hr'].
        -- left. left. by exists r'.
        -- apply list_elem_of_singleton in Hr' as ->. destruct Hx as [->| ->]; auto.
Qed.

Lemma elem_of_graph_nodes (st : Store) (x : address) :
  x ∈ g_nodes (build_graph (account_relationships st)) <-> x ∈ endpoints st.
Proof.
  rewrite (proj2 (build_graph_nodes _)). unfold endpoints.
  rewrite elem_of_list_to_set, list_elem_of_bind. split.
  - intros (r & Hr & Hx). exists r. split; [|done].
    destruct Hx as [->| ->];
      [apply list_elem_of_here|apply list_elem_of_further, list_elem_of_here].
  - intros (r & Hx & Hr). exists r. split; [done|].
    apply elem_of_cons in Hx as [->|Hx]; [by left|].
    apply list_elem_of_singleton in Hx as ->. by right.
Qed.

Lemma build_graph_edges (rows : list AccountRelationship) (u v : address) :
  g_edges (build_graph rows) !! (u, v)
  = edge_of <$> last (List.filter (is_pair u v) rows).
Proof.
  induction rows as [|r rows IH] using rev_ind; [done|].
  rewrite build_graph_snoc, List.filter_app. cbn [add_edge g_edges List.filter].
  unfold is_pair at 2.
  destruct (bool_decide_reflect (ar_from_address r = u)) as [Hu|Hu];
    destruct (bool_decide_reflect (ar_to_address r = v)) as [Hv|Hv]; cbn [andb].
  - rewrite last_snoc, Hu, Hv. by rewrite lookup_insert_eq.
  - rewrite app_nil_r, lookup_insert_ne by congruence. done.
  - rewrite app_nil_r, lookup_insert_ne by congruence. done.
  - rewrite app_nil_r, lookup_insert_ne by congruence. done.
Qed.

(** X12: the graph the engine builds has one node for each account that
    appears in a relationship, each once, and one edge for each
    [(from, to)] key, carrying the volume and count of the last row with
    that key. *)
Theorem graph_of_relationships (st : Store) (u v : address) :
  let G := build_graph (account_relationships st) in
  NoDup (g_nodes G)
  /\ list_to_set (g_nodes G) = endpoints st
  /\ g_edges G !! (u, v)
     = edge_of <$> last (List.filter (is_pair u v) (account_relationships st)).
Proof.
  intros G. split; [apply build_graph_nodes|]. split; [|apply build_graph_edges].
  apply set_eq. intros x. rewrite elem_of_list_to_set. apply elem_of_graph_nodes.
Qed.

(** ** Common neighbours *)

Lemma sum_nat_bound (l : list nat) (m : nat) :
  Forall (fun n => (n <= m)%nat) l -> (sum_nat l <= length l * m)%nat.
Proof.
  induction 1 as [|n l Hn _ IH]; simpl; lia.
Qed.

(** X13: the average number of common neighbours written for a node lies
    between 0 and the number of its neighbours. *)
Theorem common_neighbors_avg_bounds (G : DiGraph) (node : address) :
  0 <= common_neighbors_avg G node <= natQ (size (all_neighbors G node)).
Proof.
  unfold common_neighbors_avg.
  set (N := all_neighbors G node).
  set (counts := map (fun neighbor => size (N ∩ all_neighbors G neighbor)) (elements N)).
  assert (Forall (fun n => (n <= size N)%nat) counts) as Hall.
  { subst counts. apply Forall_forall. intros n Hn.
    rewrite list_elem_of_In, in_map_iff in Hn. destruct Hn as (u & <- & _).
    apply subseteq_size, intersection_subseteq_l. }
  pose proof (sum_nat_bound _ _ Hall) as Hsum.
  clearbody counts. destruct counts as [|c counts'].
  { split; [done|apply natQ_nonneg]. }
  set (counts := c :: counts') in *.
  assert (0 < natQ (length counts)) as Hlen.
  { change 0 with (natQ 0). apply natQ_lt. simpl. lia. }
  split.
  - apply Qdiv_nonneg; [apply natQ_nonneg|lra].
  - apply Qle_shift_div_r; [done|].
    assert (natQ (size N) * natQ (length counts) == natQ (length counts * size N)) as ->.
    { unfold natQ. rewrite Nat2Z.inj_mul, inject_Z_mult. ring. }
    by apply natQ_le.
Qed.

(** ** What a run leaves in the metrics table *)

Section CommittedRun.
Context `{Runtime}.

Lemma update_network_metrics_ok (clk : Clock) (c c' : Connection) :
  update_network_metrics clk c = (c', Ok ()) ->
  exists rr,
    run_computes c rr
    /\ c' = commit (with_working_metrics c
                     (upsert_table (run_rows clk c rr) (g_nodes (run_graph c))
                        (account_network_metrics (working c)))).
Proof.
  intros Hrun.
  destruct (update_network_metrics_outcome clk c)
    as [(_ & c'' & e & Hrun' & _)|(rr & Hrr & Hrun')]; [congruence|].
  exists rr. split; [done|]. congruence.
Qed.

(** X14: a run that reaches its commit publishes its working store,
    leaves the three other tables as they were, gives every account that
    appears in a relationship the row computed in this run, and keeps the
    row of every other account as it was: rows of accounts that dropped out
    of the graph are never deleted. *)
Theorem committed_table_after_run (clk : Clock) (c c' : Connection) (addr : address) :
  update_network_metrics clk c = (c', Ok ()) ->
  committed c' = working c'
  /\ accounts (committed c') = accounts (working c)
  /\ transfers (committed c') = transfers (working c)
  /\ account_relationships (committed c') = account_relationships (working c)
  /\ (addr ∈ endpoints (working c) ->
      exists rr, run_computes c rr
                 /\ account_network_metrics (committed c') !! addr
                    = Some (run_rows clk c rr addr))
  /\ (addr ∉ endpoints (working c) ->
      account_network_metrics (committed c') !! addr
      = account_network_metrics (working c) !! addr).
Proof.
  intros Hrun. destruct (update_network_metrics_ok clk c c' Hrun) as (rr & Hrr & ->).
  cbn [commit committed working with_working_metrics set_metrics accounts transfers
       account_relationships account_network_metrics].
  do 4 (split; [done|]).
  rewrite upsert_table_lookup. unfold run_graph. split.
  - intros Hin. exists rr. split; [done|].
    by rewrite bool_decide_eq_true_2 by (by apply elem_of_graph_nodes).
  - intros Hnin.
    by rewrite bool_decide_eq_false_2 by (by rewrite elem_of_graph_nodes).
Qed.

Lemma upsert_table_app (row_of : address -> NetworkMetrics) (l1 l2 : list address)
    (tbl : gmap address NetworkMetrics) :
  upsert_table row_of (l1 ++ l2) tbl = upsert_table row_of l2 (upsert_table row_of l1 tbl).
Proof. unfold upsert_table. apply fold_left_app. Qed.

(** X16: when the store refuses the write of a node, the loop stops
    there with the store's exception: the rows of the nodes before it are
    written in this connection's transaction, the node itself and the
    nodes after it are not, and nothing is committed. *)
Theorem write_fault_stops_the_loop (row_of : address -> NetworkMetrics)
    (before after : list address) (node : address) (e : string) (c : Connection) :
  Forall (fun n => execute_fault n = None) before ->
  execute_fault node = Some e ->
  upsert_nodes row_of (before ++ node :: after) c
  = (with_working_metrics c
       (upsert_table row_of before (account_network_metrics (working c))),
     Raise e).
Proof.
  revert c. induction before as [|n before IH]; intros c Hok Hfault.
  - cbn [app upsert_nodes upsert_table fold_left].
    unfold mbind, M_bind, execute_upsert. rewrite Hfault.
    by rewrite with_working_metrics_id.
  - apply Forall_cons in Hok as [Hn Hok].
    cbn [app upsert_nodes]. unfold mbind, M_bind, execute_upsert. rewrite Hn.
    rewrite (IH _ Hok Hfault). done.
Qed.

End CommittedRun.

Lemma committed_table_after_run_witness :
  let c' := (@update_network_metrics runtime_sound clock_day_6 connection_two_hop).1 in
  committed c' = working c'
  /\ accounts (committed c') = accounts (working connection_two_hop)
  /\ transfers (committed c') = transfers (working connection_two_hop)
  /\ account_relationships (committed c')
     = account_relationships (working connection_two_hop).
Proof.
  intros c'.
  destruct (@committed_table_after_run runtime_sound clock_day_6 connection_two_hop
              c' "A") as (H1 & H2 & H3 & H4 & _).
  - vm_compute. reflexivity.
  - auto.
Defined.

Lemma write_fault_stops_the_loop_witness :
  @upsert_nodes runtime_write_fault (fun _ => central_metrics) ["A"; "X"; "B"]
    connection_two_hop
  = (with_working_metrics connection_two_hop {[ "A" := central_metrics ]},
     Raise "disk I/O error").
Proof.
  apply (@write_fault_stops_the_loop runtime_write_fault (fun _ => central_metrics)
           ["A"] ["B"] "X" "disk I/O error" connection_two_hop).
  - repeat constructor.
  - reflexivity.
Defined.

(** ** Query surface *)

Lemma sql_geb_total (x y : option Q) : sql_geb x y = true \/ sql_geb y x = true.
Proof.
  destruct x as [a|], y as [b|]; simpl; auto.
  destruct (Qlt_le_dec a b) as [Hlt|Hle].
  - right. apply Qle_bool_iff. lra.
  - left. by apply Qle_bool_iff.
Qed.

Lemma sql_geb_trans (x y z : option Q) :
  sql_geb x y = true -> sql_geb y z = true -> sql_geb x z = true.
Proof.
  destruct x as [a|], y as [b|], z as [c|]; simpl; try done.
  rewrite !Qle_bool_iff. intros. lra.
Qed.

#[local] Instance order_desc_total {A} (key : A -> option Q) : Total (order_desc key).
Proof. intros r1 r2. apply sql_geb_total. Qed.

#[local] Instance order_desc_trans {A} (key : A -> option Q) :
  Transitive (order_desc key).
Proof. intros r1 r2 r3. apply sql_geb_trans. Qed.

Lemma StronglySorted_app_cross {A} (R : relation A) (l1 l2 : list A) :
  StronglySorted R (l1 ++ l2) ->
  forall x y, x ∈ l1 -> y ∈ l2 -> R x y.
Proof.
  induction l1 as [|z l1 IH]; intros Hs x y Hx Hy.
  - by apply elem_of_nil in Hx.
  - simpl in Hs. apply StronglySorted_inv in Hs as [Hs Hz].
    apply elem_of_cons in Hx as [->|Hx]; [|by apply IH].
    rewrite Forall_forall in Hz. apply Hz. apply elem_of_app. by right.
Qed.

Lemma sql_limit_split {A} (limit : Z) (l : list A) :
  exists rest, sql_limit limit l ++ rest = l
               /\ length (sql_limit limit l)
                  = if Z.ltb limit 0 then length l
                    else Nat.min (Z.to_nat limit) (length l).
Proof.
  unfold sql_limit. destruct (Z.ltb limit 0).
  - exists []. by rewrite app_nil_r.
  - exists (drop (Z.to_nat limit) l). by rewrite take_drop, length_take.
Qed.

(** X17: [get_top_relationships] returns [min(limit, rows)] rows (all of
    them for a negative limit), in descending order of [total_score] with
    unscored rows last; what it returns and what it leaves out are together
    the rows of the table, and no row left out has a higher score than a
    returned one. *)
Theorem top_relationships_are_the_top (st : Store) (scored : list ScoredRelationship)
    (limit : Z) :
  let result := map top_row (get_top_relationships st scored limit) in
  length result
    = (if Z.ltb limit 0 then length scored
       else Nat.min (Z.to_nat limit) (length scored))
  /\ StronglySorted (order_desc sr_total_score) result
  /\ exists rest,
       result ++ rest ≡ₚ scored
       /\ forall r r', r ∈ result -> r' ∈ rest -> order_desc sr_total_score r r'.
Proof.
  intros result.
  assert (result = sql_limit limit (merge_sort (order_desc sr_total_score) scored))
    as ->.
  { subst result. unfold get_top_relationships. rewrite map_map. cbn [top_row].
    apply map_id. }
  set (sorted := merge_sort (order_desc sr_total_score) scored).
  pose proof (StronglySorted_merge_sort (order_desc sr_total_score) scored) as Hs.
  pose proof (merge_sort_Permutation (order_desc sr_total_score) scored) as Hp.
  fold sorted in Hs, Hp.
  destruct (sql_limit_split limit sorted) as (rest & Hsplit & Hlen).
  split; [|split].
  - rewrite Hlen. by rewrite (Permutation_length Hp).
  - rewrite <- Hsplit in Hs. clear -Hs.
    induction (sql_limit limit sorted) as [|x l IH]; [constructor|].
    simpl in Hs. apply StronglySorted_inv in Hs as [Hs Hx].
    constructor; [by apply IH|]. by apply Forall_app in Hx as [Hx _].
  - exists rest. split; [by rewrite Hsplit|].
    apply StronglySorted_app_cross. by rewrite Hsplit.
Qed.

Example top_two_scored_rows :
  map (fun r => sr_total_score (top_row r))
      (get_top_relationships store_active scored_rows 2) = [Some 91; Some 55]
  /\ map (fun r => sr_total_score (top_row r))
       (get_top_relationships store_active scored_rows (-1))
     = [Some 91; Some 55; Some 12; None].
Proof. vm_compute. split; reflexivity. Qed.

Lemma sql_gtb_true (x : option Q) (bound : Q) :
  sql_gtb x bound = true <-> exists q, x = Some q /\ bound < q.
Proof.
  destruct x as [q|]; simpl.
  - rewrite Qltb_lt. split; [by exists q|]. by intros (q' & [= <-] & Hq).
  - split; [done|]. by intros (q' & [=] & _).
Qed.

Lemma sql_gtb_mono (x : option Q) (bound bound' : Q) :
  bound <= bound' -> sql_gtb x bound' = true -> sql_gtb x bound = true.
Proof.
  intros Hle. rewrite !sql_gtb_true. intros (q & -> & Hq). exists q.
  split; [done|lra].
Qed.

Lemma filter_submseteq_impl {A} (p q : A -> bool) (l : list A) :
  (forall x, p x = true -> q x = true) -> List.filter p l ⊆+ List.filter q l.
Proof.
  intros Hpq. induction l as [|x l IH]; [done|].
  simpl. destruct (p x) eqn:Ep.
  - rewrite (Hpq x Ep). by apply submseteq_skip.
  - destruct (q x); [by apply submseteq_cons|done].
Qed.

(** X18: [find_suspicious_relationships] returns exactly the rows whose
    stored volume score and risk score are both strictly above the
    thresholds, each once, in descending order of risk score; a row with a
    NULL score is never returned, and raising the thresholds never adds a
    row. *)
Theorem suspicious_relationships_exactly (scored : list ScoredRelationship)
    (min_volume min_risk min_volume' min_risk' : Q) :
  min_volume <= min_volume' ->
  min_risk <= min_risk' ->
  let result := find_suspicious_relationships scored min_volume min_risk in
  result ≡ₚ List.filter (is_suspicious min_volume min_risk) scored
  /\ StronglySorted (order_desc sr_risk_score) result
  /\ (forall r, r ∈ result <->
        r ∈ scored
        /\ exists v k, sr_volume_score r = Some v /\ sr_risk_score r = Some k
                       /\ min_volume < v /\ min_risk < k)
  /\ find_suspicious_relationships scored min_volume' min_risk' ⊆+ result.
Proof.
  intros Hv Hk result. subst result. unfold find_suspicious_relationships.
  split; [apply merge_sort_Permutation|].
  split; [apply StronglySorted_merge_sort; apply _|].
  split.
  - intros r. rewrite merge_sort_Permutation.
    rewrite list_elem_of_In, filter_In, <- list_elem_of_In.
    unfold is_suspicious. rewrite andb_true_iff, !sql_gtb_true.
    split.
    + intros (Hin & (v & Hvs & Hvq) & (k & Hks & Hkq)). split; [done|].
      by exists v, k.
    + intros (Hin & v & k & Hvs & Hks & Hvq & Hkq). split; [done|].
      split; [by exists v|by exists k].
  - rewrite !merge_sort_Permutation. apply filter_submseteq_impl.
    intros r. unfold is_suspicious. rewrite !andb_true_iff. intros [H1 H2].
    split; eapply sql_gtb_mono; eauto.
Qed.

Lemma suspicious_relationships_exactly_witness :
  find_suspicious_relationships scored_rows 80 35
  ⊆+ find_suspicious_relationships scored_rows 70 30.
Proof.
  apply (suspicious_relationships_exactly scored_rows 70 30 80 35); discriminate.
Defined.

Example suspicious_scored_rows :
  map (fun r => (ar_from_address (sr_row r), ar_to_address (sr_row r)))
      (find_suspicious_relationships scored_rows 70 30) = [("A", "B"); ("B", "C")].
Proof. vm_compute. reflexivity. Qed.

(** ** The heatmap of relationship strengths *)

Lemma addr_to_idx_from_notin (addresses : list string) (i : nat)
  (d : gmap string nat) (a : string) :
  a ∉ addresses -> addr_to_idx_from i addresses d !! a = d !! a.
Proof.
  revert i d. induction addresses as [|x rest IH]; intros i d Hn; [done|].
  apply not_elem_of_cons in Hn as [Hx Hrest]. cbn.
  rewrite IH by done. by apply lookup_insert_ne.
Qed.

Lemma addr_to_idx_from_lookup (addresses : list string) (i k : nat)
  (d : gmap string nat) (a : string) :
  NoDup addresses -> addresses !! k = Some a ->
  addr_to_idx_from i addresses d !! a = Some (i + k)%nat.
Proof.
  revert i k d. induction addresses as [|x rest IH]; intros i k d Hnd Hk; [done|].
  apply NoDup_cons in Hnd as [Hx Hnd]. destruct k as [|k]; cbn in *.
  - injection Hk as ->. rewrite addr_to_idx_from_notin by done.
    rewrite lookup_insert_eq. f_equal. lia.
  - rewrite (IH (S i) k) by done. f_equal. lia.
Qed.

Lemma heat_addresses_NoDup (listed : list (string * string * Q)) :
  NoDup (heat_addresses listed).
Proof.
  unfold heat_addresses.
  rewrite merge_sort_Permutation. apply NoDup_remove_dups.
Qed.

Lemma elem_of_heat_addresses (listed : list (string * string * Q)) (a : string) :
  a ∈ heat_addresses listed <-> exists r, r ∈ listed /\ (a = r.1.1 \/ a = r.1.2).
Proof.
  unfold heat_addresses. rewrite merge_sort_Permutation, elem_of_remove_dups.
  rewrite list_elem_of_In, in_flat_map. split.
  - intros (r & Hr & Ha). exists r. rewrite list_elem_of_In. split; [done|].
    cbn in Ha. destruct Ha as [<-|[<-|[]]]; auto.
  - intros (r & Hr & Ha). exists r. rewrite <- list_elem_of_In. split; [done|].
    cbn. destruct Ha as [->| ->]; auto.
Qed.

Lemma last_score_snoc (a b : string) (listed : list (string * string * Q))
  (r : string * string * Q) :
  last_score a b (listed ++ [r])
  = if decide (r.1.1 = a /\ r.1.2 = b) then r.2 else last_score a b listed.
Proof. unfold last_score. by rewrite foldl_app. Qed.

Lemma heat_loop_cells (addresses : list string) (listed : list (string * string * Q)) :
  NoDup addresses ->
  (forall r, r ∈ listed -> r.1.1 ∈ addresses /\ r.1.2 ∈ addresses) ->
  exists matrix,
    heat_loop (addr_to_idx addresses)
      (replicate (length addresses) (replicate (length addresses) 0)) listed
    = Ok matrix
    /\ length matrix = length addresses
    /\ Forall (fun row => length row = length addresses) matrix
    /\ forall i j a b,
         addresses !! i = Some a -> addresses !! j = Some b ->
         cell matrix i j = Some (last_score a b listed).
Proof.
  intros Hnd. set (n := length addresses).
  induction listed as [|r listed IH] using rev_ind; intros Hin.
  - eexists. split; [reflexivity|]. split; [apply length_replicate|].
    split; [apply Forall_replicate, length_replicate|].
    intros i j a b Hi Hj. unfold cell.
    apply lookup_lt_Some in Hi, Hj. fold n in Hi, Hj.
    rewrite lookup_replicate_2 by done. cbn.
    by rewrite lookup_replicate_2.
  - destruct IH as (m & Hm & Hlen & Hrows & Hcells).
    { intros r' Hr'. apply Hin, elem_of_app. by left. }
    destruct (Hin r) as [Hf Ht]; [apply elem_of_app; right; apply list_elem_of_here|].
    apply list_elem_of_lookup in Hf as [i0 Hi0], Ht as [j0 Hj0].
    unfold heat_loop in *. rewrite foldl_app. cbn [foldl]. rewrite Hm.
    unfold heat_step, addr_to_idx.
    rewrite (addr_to_idx_from_lookup _ 0 i0 _ _ Hnd Hi0).
    rewrite (addr_to_idx_from_lookup _ 0 j0 _ _ Hnd Hj0). cbn [Nat.add].
    pose proof (lookup_lt_Some _ _ _ Hi0) as Hi0n.
    pose proof (lookup_lt_Some _ _ _ Hj0) as Hj0n. fold n in Hi0n, Hj0n.
    destruct (lookup_lt_is_Some_2 m i0) as [row Hrow]; [lia|].
    assert (length row = n) as Hrown
      by (by eapply (proj1 (Forall_lookup _ _) Hrows)).
    unfold set_cell. rewrite Hrow.
    destruct (decide (j0 < length row)%nat) as [_|Hge]; [|lia].
    eexists. split; [reflexivity|]. split; [by rewrite length_insert|].
    split; [apply Forall_insert; [done|by rewrite length_insert]|].
    intros i j a b Hi Hj. rewrite last_score_snoc.
    destruct (decide (r.1.1 = a /\ r.1.2 = b)) as [[Ea Eb]|Hne].
    + subst a b.
      rewrite (NoDup_lookup _ _ _ _ Hnd Hi Hi0), (NoDup_lookup _ _ _ _ Hnd Hj Hj0).
      unfold cell. rewrite list_lookup_insert_eq by lia. cbn.
      by rewrite list_lookup_insert_eq by lia.
    + rewrite <- (Hcells i j a b Hi Hj). unfold cell.
      destruct (decide (i0 = i)) as [->|Hi'].
      * rewrite list_lookup_insert_eq by lia. rewrite Hrow. cbn.
        apply list_lookup_insert_ne. intros ->. apply Hne. split; congruence.
      * by rewrite list_lookup_insert_ne.
Qed.

(** X21: the heatmap loop never fails and never skips a listed
    relationship.  The matrix is square over the distinct addresses of the
    listed relationships, which are exactly their endpoints; the cell of
    the addresses [a] (row) and [b] (column) holds the score of the last
    listed relationship from [a] to [b], and 0 when none is listed. *)
Theorem heatmap_cells (relationships : list (string * string * Q)) (top_n : Z) :
  let listed := py_slice_to top_n relationships in
  let addresses := (heatmap_matrix relationships top_n).1 in
  NoDup addresses
  /\ (forall a, a ∈ addresses <-> exists r, r ∈ listed /\ (a = r.1.1 \/ a = r.1.2))
  /\ exists matrix,
       (heatmap_matrix relationships top_n).2 = Ok matrix
       /\ length matrix = length addresses
       /\ Forall (fun row => length row = length addresses) matrix
       /\ forall i j a b,
            addresses !! i = Some a -> addresses !! j = Some b ->
            cell matrix i j = Some (last_score a b listed).
Proof.
  intros listed addresses. subst addresses. unfold heatmap_matrix.
  cbn [fst snd]. fold listed.
  split; [apply heat_addresses_NoDup|].
  split; [apply elem_of_heat_addresses|].
  apply heat_loop_cells; [apply heat_addresses_NoDup|].
  intros r Hr. split; apply elem_of_heat_addresses; exists r; auto.
Qed.

Example heat_rows_matrix :
  heatmap_matrix heat_rows 3 = (["A"; "B"], Ok [[0; 30]; [50; 0]])
  /\ heatmap_matrix heat_rows (-1) = (["A"; "B"], Ok [[0; 30]; [50; 0]])
  /\ heatmap_matrix heat_rows 20
     = (["A"; "B"; "C"], Ok [[0; 30; 0]; [50; 0; 0]; [70; 0; 0]]).
Proof. repeat split; vm_compute; reflexivity. Qed.

(** * The security audit script *)

Lemma str_remove_twice (c d : string) (s : string) :
  str_remove c (str_remove d (str_remove c s)) = str_remove d (str_remove c s).
Proof.
  induction s as [|x rest IH]; [done|]. cbn [str_remove].
  destruct (String.eqb (String x EmptyString) c) eqn:Ec; [exact IH|].
  cbn [str_remove].
  destruct (String.eqb (String x EmptyString) d) eqn:Ed; [exact IH|].
  cbn [str_remove]. by rewrite Ec, IH.
Qed.

Lemma str_remove_idemp (c : string) (s : string) :
  str_remove c (str_remove c s) = str_remove c s.
Proof.
  induction s as [|x rest IH]; [done|]. cbn [str_remove].
  destruct (String.eqb (String x EmptyString) c) eqn:Ec; [exact IH|].
  cbn [str_remove]. by rewrite Ec, IH.
Qed.

(** X22: the dependency check never looks at [vulnerable_versions]: it
    reports every package of its table that is among the dependencies,
    whatever its version, with the version stripped of every [^] and [~],
    the table's safe version and issues and the severity "medium"; and it
    reports nothing else. *)
Theorem audit_reports_any_version (pj : PackageJson) (v : Vulnerability) :
  let deps := default ∅ (dependencies pj) in
  (v ∈ check_dependency_versions (Some pj) <->
   exists pkg info version,
     (pkg, info) ∈ vulnerable_packages
     /\ deps !! pkg = Some version
     /\ v = {| v_package := pkg;
               v_current_version := str_remove "~" (str_remove "^" version);
               v_safe_version := current_safe info;
               v_issues := issues info;
               v_severity := "medium" |})
  /\ (v ∈ check_dependency_versions (Some pj) ->
      str_remove "^" (v_current_version v) = v_current_version v
      /\ str_remove "~" (v_current_version v) = v_current_version v).
Proof.
  intros deps.
  assert (v ∈ check_dependency_versions (Some pj) <->
          exists pkg info version,
            (pkg, info) ∈ vulnerable_packages
            /\ deps !! pkg = Some version
            /\ v = {| v_package := pkg;
                      v_current_version := str_remove "~" (str_remove "^" version);
                      v_safe_version := current_safe info;
                      v_issues := issues info;
                      v_severity := "medium" |}) as Hchar.
  { unfold check_dependency_versions. fold deps. rewrite list_elem_of_omap. split.
    - intros ([pkg info] & Hin & Hrep). unfold report_package in Hrep. cbn in Hrep.
      destruct (deps !! pkg) as [version|] eqn:Hv; [|done].
      injection Hrep as <-. by exists pkg, info, version.
    - intros (pkg & info & version & Hin & Hv & ->). exists (pkg, info).
      split; [done|]. unfold report_package. cbn. by rewrite Hv. }
  split; [exact Hchar|].
  intros (pkg & info & version & _ & _ & ->)%Hchar. cbn. split.
  - apply str_remove_twice.
  - apply str_remove_idemp.
Qed.

Lemma overall_status_good (total_issues : nat) :
  overall_status total_issues = "GOOD" <-> total_issues = 0%nat.
Proof.
  unfold overall_status. destruct total_issues as [|n]; [done|]. cbn [Nat.eqb].
  destruct (Nat.leb (S n) 3); split; discriminate.
Qed.

(** X23: the summary of the report is "GOOD" exactly when no package of
    the table is a dependency and no secret and no environment issue was
    found; and a project that depends on all four packages of the table
    gets four findings and "NEEDS ATTENTION", whatever their versions and
    whatever else was found. *)
Theorem audit_summary_by_dependencies {S E} (pj : PackageJson)
  (secrets : list S) (env_issues : list E) :
  let deps := default ∅ (dependencies pj) in
  let vulnerabilities := check_dependency_versions (Some pj) in
  (security_summary vulnerabilities secrets env_issues = "GOOD" <->
   (forall pkg, pkg ∈ vulnerable_packages.*1 -> deps !! pkg = None)
   /\ secrets = [] /\ env_issues = [])
  /\ ((forall pkg, pkg ∈ vulnerable_packages.*1 -> is_Some (deps !! pkg)) ->
      length vulnerabilities = 4%nat
      /\ security_summary vulnerabilities secrets env_issues = "NEEDS ATTENTION").
Proof.
  intros deps vulnerabilities. subst vulnerabilities.
  unfold security_summary. rewrite overall_status_good.
  unfold check_dependency_versions. fold deps.
  cbn [vulnerable_packages omap list_omap].
  unfold report_package. cbn [fst snd].
  split.
  - split.
    + intros Hgood.
      destruct (deps !! "express") eqn:E1; [cbn in Hgood; lia|].
      destruct (deps !! "helmet") eqn:E2; [cbn in Hgood; lia|].
      destruct (deps !! "socket.io") eqn:E3; [cbn in Hgood; lia|].
      destruct (deps !! "cors") eqn:E4; [cbn in Hgood; lia|].
      destruct secrets; [|cbn in Hgood; lia].
      destruct env_issues; [|cbn in Hgood; lia].
      split; [|done]. intros pkg Hpkg. cbn in Hpkg.
      repeat (apply elem_of_cons in Hpkg as [->|Hpkg]; [done|]).
      by apply elem_of_nil in Hpkg.
    + intros (Hnone & -> & ->).
      rewrite (Hnone "express"), (Hnone "helmet"), (Hnone "socket.io"),
        (Hnone "cors"); [reflexivity|cbn..].
      * do 3 apply list_elem_of_further. apply list_elem_of_here.
      * do 2 apply list_elem_of_further. apply list_elem_of_here.
      * apply list_elem_of_further, list_elem_of_here.
      * apply list_elem_of_here.
  - intros Hall.
    destruct (Hall "express") as [v1 ->]; [apply list_elem_of_here|].
    destruct (Hall "helmet") as [v2 ->];
      [apply list_elem_of_further, list_elem_of_here|].
    destruct (Hall "socket.io") as [v3 ->];
      [do 2 apply list_elem_of_further; apply list_elem_of_here|].
    destruct (Hall "cors") as [v4 ->];
      [do 3 apply list_elem_of_further; apply list_elem_of_here|].
    split; [reflexivity|]. unfold overall_status. cbn [length Nat.add Nat.eqb].
    reflexivity.
Qed.

Lemma audit_summary_by_dependencies_witness :
  length (check_dependency_versions (Some package_json_current)) = 4%nat
  /\ security_summary (check_dependency_versions (Some package_json_current))
       (@nil string) (@nil string) = "NEEDS ATTENTION".
Proof.
  apply (audit_summary_by_dependencies package_json_current (@nil string) (@nil string)).
  intros pkg Hpkg. cbn in Hpkg.
  repeat (apply elem_of_cons in Hpkg as [->|Hpkg]; [vm_compute; eauto|]).
  by apply elem_of_nil in Hpkg.
Defined.

Example current_packages_reported :
  map (fun v => (v_package v, v_current_version v, v_safe_version v))
    (check_dependency_versions (Some package_json_current))
  = [("express", "4.21.2", "4.21.2"); ("helmet", "7.2.0", "7.2.0");
     ("socket.io", "4.8.1", "4.8.1"); ("cors", "2.8.5", "2.8.5")].
Proof. vm_compute. reflexivity. Qed.
